(** * VRF delegate: listener resolution and starting response counts

    A shallow embedding of the Go package [vrf] (delegate) and of
    [core/services/service.go].

    - Go [string] is a sequence of bytes: [string] (8-bit [ascii]).
    - Go [byte] is an 8-bit [Z]; [[]byte] and [[32]byte] are [list Z].
    - Go [uint64] / [int] are [Z], conversions are written out.
    - Go maps are [gmap]s.
    - Calls to collaborators (store, chain set, contract bindings, logger)
      are recorded in a trace by a small state/error monad. *)

From Stdlib Require Import ZArith Ascii String Lia.
From Stdlib Require Import DecimalString DecimalPos DecimalZ.
From stdpp Require Import gmap strings list fin_maps.

Local Open Scope Z_scope.

(** ** Go primitives used by the package *)

Module Go.

(** The double-quote character, byte 0x22. *)
Definition dquote : ascii :=
  Ascii false true false false false true false false.

(** [s] between two double quotes, the JSON text of a JSON string. *)
Definition quoted (s : string) : string :=
  String dquote (s ++ String dquote EmptyString).

Definition byte_of_ascii (c : ascii) : Z := Z.of_N (N_of_ascii c).

Definition is_byte (b : Z) : Prop := 0 <= b < 256.

(** [uint64(x)] for an [int] [x]: two's complement reinterpretation. *)
Definition uint64 (x : Z) : Z := x mod 2 ^ 64.

(** [s[n:]] on a string; Go panics when [n > len(s)]. *)
Definition slice_from (s : string) (n : nat) : option string :=
  if (n <=? String.length s)%nat
  then Some (String.substring n (String.length s - n) s)
  else None.

(** [strings.Replace(s, old, new, n)] for a one-byte [old] and [n >= 0]:
    the first [n] occurrences of [old], left to right, become [new]. *)
Fixpoint strings_Replace (s : string) (old : ascii) (new : string) (n : nat)
  : string :=
  match s with
  | EmptyString => EmptyString
  | String c s' =>
      match n with
      | O => s
      | S n' =>
          if Ascii.eqb c old
          then (new ++ strings_Replace s' old new n')%string
          else String c (strings_Replace s' old new n)
      end
  end.

(** [copy(dst, src)]: [min(len(dst), len(src))] elements are copied to the
    front of [dst]; the rest of [dst] is left as it was. *)
Definition copy {A} (dst src : list A) : list A :=
  take (length dst) src ++ drop (length src) dst.

(** The zero value of [[32]byte]. *)
Definition zero32 : list Z := replicate 32 0.

(** [new(big.Int).SetBytes(b)]: [b] read as a big-endian unsigned integer. *)
Definition big_SetBytes (b : list Z) : Z :=
  fold_left (fun acc x => acc * 256 + x) b 0.

(** [String()] of a [big.Int]: base-10 text, ["-"] in front of a negative. *)
Definition big_String (x : Z) : string :=
  NilZero.string_of_int (Z.to_int x).

(** [Uint64()] of a [big.Int]: the low 64 bits of the magnitude. *)
Definition big_Uint64 (x : Z) : Z := Z.abs x mod 2 ^ 64.

End Go.

(** ** encoding/hex *)

Module Hex.

Inductive hex_error :=
| InvalidByteError (b : Z)
| ErrLength.

Definition hextable : string := "0123456789abcdef".

Definition hexdigit (v : Z) : ascii :=
  match String.get (Z.to_nat v) hextable with
  | Some c => c
  | None => "0"%char
  end.

(** [hex.EncodeToString]: two digits per byte, [hextable[v>>4]] then
    [hextable[v&0x0f]]. *)
Fixpoint EncodeToString (src : list Z) : string :=
  match src with
  | [] => EmptyString
  | v :: src' =>
      String (hexdigit (Z.shiftr v 4))
        (String (hexdigit (Z.land v 15)) (EncodeToString src'))
  end.

(** [fromHexChar]: the value of one hex digit, either case. *)
Definition fromHexChar (c : ascii) : option Z :=
  let n := Go.byte_of_ascii c in
  if (48 <=? n) && (n <=? 57) then Some (n - 48)
  else if (97 <=? n) && (n <=? 102) then Some (n - 97 + 10)
  else if (65 <=? n) && (n <=? 70) then Some (n - 65 + 10)
  else None.

(** [hex.DecodeString]: pairs are decoded left to right; the first invalid
    character is reported; a trailing single valid digit is [ErrLength]. *)
Fixpoint DecodeString (s : string) : hex_error + list Z :=
  match s with
  | EmptyString => inr []
  | String p EmptyString =>
      match fromHexChar p with
      | None => inl (InvalidByteError (Go.byte_of_ascii p))
      | Some _ => inl ErrLength
      end
  | String p (String q s') =>
      match fromHexChar p with
      | None => inl (InvalidByteError (Go.byte_of_ascii p))
      | Some a =>
          match fromHexChar q with
          | None => inl (InvalidByteError (Go.byte_of_ascii q))
          | Some b =>
              match DecodeString s' with
              | inl e => inl e
              | inr bs => inr (Z.lor (Z.shiftl a 4) b :: bs)
              end
          end
      end
  end.

End Hex.

(** ** Errors, log fields and the trace of collaborator calls *)

Inductive error :=
| ErrInvalidSpec
    (* "vrf.Delegate expects a VRFSpec and PipelineSpec to be present" *)
| ErrNoVRFTask
    (* "invalid job spec expected a vrf task" *)
| ErrHex (e : Hex.hex_error)
| ErrExternal (msg : string).
    (* an error value handed back by a collaborator *)

Inductive field :=
| FInt (key : string) (v : Z)
| FStr (key : string) (v : string)
| FErr (key : string) (e : error).

(** [logger.Logger]: [Named] appends to the name, [With] adds fields. *)
Record Logger := { lg_name : list string; lg_fields : list field }.

Definition Logger_With (l : Logger) (fs : list field) : Logger :=
  {| lg_name := lg_name l; lg_fields := lg_fields l ++ fs |}.

Definition Logger_Named (l : Logger) (n : string) : Logger :=
  {| lg_name := lg_name l ++ [n]; lg_fields := lg_fields l |}.

Inductive event :=
| EvChainGet (chainID : Z)
| EvNewVRFCoordinator (addr : string)
| EvNewVRFCoordinatorV2 (addr : string)
| EvLINKETHFEED
| EvNewAggregatorV3Interface (addr : string)
| EvSelect (chainID depth : Z)
| EvErrorw (l : Logger) (msg : string) (fs : list field).

Inductive outcome (A : Type) :=
| Done (a : A)
| Panicked (why : string).
Arguments Done {A} a.
Arguments Panicked {A} why.

(** A computation: the calls it made, in order, and how it ended.  Go's
    [(value, error)] results are ordinary values of type [error + A]. *)
Definition M (A : Type) : Type := list event * outcome A.

Definition ret {A} (a : A) : M A := ([], Done a).

Definition bind {A B} (m : M A) (k : A -> M B) : M B :=
  match m with
  | (t, Done a) => let (t', r) := k a in (t ++ t', r)
  | (t, Panicked w) => (t, Panicked w)
  end.

Definition emit (e : event) : M unit := ([e], Done tt).

Definition panic {A} (why : string) : M A := ([], Panicked why).

(** [v, err := f(); if err != nil { return nil, err }; ...] *)
Definition bindE {A B} (m : M (error + A)) (k : A -> M (error + B))
  : M (error + B) :=
  bind m (fun r => match r with inl e => ret (inl e) | inr a => k a end).

(** A call to a collaborator: recorded, then its answer is used. *)
Definition call {A} (e : event) (answer : A) : M A :=
  bind (emit e) (fun _ => ret answer).

Declare Scope go_scope.
Delimit Scope go_scope with go.
Notation "x <- m ;; k" := (bind m (fun x => k))
  (at level 100, m at next level, k at level 200, right associativity)
  : go_scope.
Notation "m ;;; k" := (bind m (fun _ => k))
  (at level 100, k at level 200, right associativity) : go_scope.
Notation "x <-? m ;; k" := (bindE m (fun x => k))
  (at level 100, m at next level, k at level 200, right associativity)
  : go_scope.
Local Open Scope go_scope.

Definition trace {A} (m : M A) : list event := fst m.
Definition result {A} (m : M A) : outcome A := snd m.

(** ** The store: the relations read by the starting-counts query *)

Module Store.

(** [eth_txes]: [et_meta_RequestID] is the JSON text of
    [meta->'RequestID'], [None] when that is SQL NULL. *)
Record eth_tx := {
  et_id : Z;
  et_meta_RequestID : option string;
  et_state : string;
  et_evm_chain_id : Z }.

Record eth_tx_attempt := { eta_eth_tx_id : Z; eta_hash : string }.

Record eth_receipt := { er_tx_hash : string; er_block_number : Z }.

Record evm_head := { eh_evm_chain_id : Z; eh_number : Z }.

Record DB := {
  eth_txes : list eth_tx;
  eth_tx_attempts : list eth_tx_attempt;
  eth_receipts : list eth_receipt;
  evm_heads : list evm_head }.

(** One row of the result: [struct { RequestID string; Count int }]. *)
Record respCount := { RequestID : string; Count : Z }.

(** [SELECT k, count(k) ... GROUP BY k] over the values [ks] of [k] (none
    of them NULL).  SQL leaves the order of the groups open; here a group
    stands where its key occurs last. *)
Definition group_count (ks : list string) : list respCount :=
  (fun k => {| RequestID := k;
               Count := Z.of_nat (length (filter (fun x => x = k) ks)) |})
    <$> remove_dups ks.

(** [et.state IN ('unconfirmed', 'unstarted', 'in_progress')] *)
Definition in_flight (et : eth_tx) : bool :=
  bool_decide (et_state et ∈ ["unconfirmed"; "unstarted"; "in_progress"]%string).

(** The rows of [unconfirmedQuery] before grouping. *)
Definition unconfirmed_ids (db : DB) : list string :=
  omap (fun et => if in_flight et then et_meta_RequestID et else None)
    (eth_txes db).

Definition unconfirmedQuery (db : DB) : list respCount :=
  group_count (unconfirmed_ids db).

(** [eth_txes et JOIN eth_tx_attempts eta ON et.id = eta.eth_tx_id
     JOIN eth_receipts er ON eta.hash = er.tx_hash] *)
Definition confirmed_join (db : DB)
  : list (eth_tx * eth_tx_attempt * eth_receipt) :=
  et ← eth_txes db;
  eta ← filter (fun eta => eta_eth_tx_id eta = et_id et) (eth_tx_attempts db);
  er ← filter (fun er => er_tx_hash er = eta_hash eta) (eth_receipts db);
  [(et, eta, er)].

(** [SELECT number FROM evm_heads WHERE evm_chain_id = $1
     ORDER BY number DESC LIMIT 1]; no row gives NULL. *)
Definition latest_head (db : DB) (chainID : Z) : option Z :=
  match filter (fun h => eh_evm_chain_id h = chainID) (evm_heads db) with
  | [] => None
  | h :: hs => Some (foldr Z.max (eh_number h) (eh_number <$> hs))
  end.

(** [er.block_number >= (latest head) - $2]; a NULL head makes the
    comparison NULL and the row is dropped. *)
Definition within_finality (head : option Z) (depth : Z) (er : eth_receipt)
  : bool :=
  match head with
  | Some h => bool_decide (h - depth <= er_block_number er)
  | None => false
  end.

(** The rows of [confirmedQuery] before grouping. *)
Definition confirmed_ids (db : DB) (chainID depth : Z) : list string :=
  omap (fun j : eth_tx * eth_tx_attempt * eth_receipt =>
          if within_finality (latest_head db chainID) depth j.2
          then et_meta_RequestID j.1.1 else None)
    (confirmed_join db).

Definition confirmedQuery (db : DB) (chainID depth : Z) : list respCount :=
  group_count (confirmed_ids db chainID depth).

(** [unconfirmedQuery UNION ALL confirmedQuery]: both row sets, nothing
    merged.  The rows of the first branch are put first. *)
Definition query (db : DB) (chainID depth : Z) : list respCount :=
  unconfirmedQuery db ++ confirmedQuery db chainID depth.

(** [pg.Q]: a store that answers, or one whose queries fail with [e]. *)
Inductive Q :=
| Connected (db : DB)
| Unavailable (e : error).

(** [q.Select(&counts, query, chainID, evmFinalityDepth)] *)
Definition Select (q : Q) (chainID depth : Z) : M (error + list respCount) :=
  call (EvSelect chainID depth)
    match q with
    | Connected db => inr (query db chainID depth)
    | Unavailable e => inl e
    end.

End Store.

Import Store.

(** ** Package vrf: the starting response counts *)

(** [getRespCounts]: one query, its error handed back as it is. *)
Definition getRespCounts (q : Q) (chainID evmFinalityDepth : Z)
  : M (error + list respCount) :=
  counts <-? Select q chainID evmFinalityDepth ;;
  ret (inr counts).

(** The first two statements of both loop bodies:
    [strings.Replace] takes the first two double quotes out of
    [c.RequestID], giving [req]; then [hex.DecodeString(req[2:])].  The
    slice expression panics when [req] has fewer than two bytes. *)
Definition decodeRequestID (c : respCount) : M (Hex.hex_error + list Z) :=
  let req := Go.strings_Replace (RequestID c) Go.dquote EmptyString 2 in
  match Go.slice_from req 2 with
  | None => panic "slice bounds out of range"
  | Some payload => ret (Hex.DecodeString payload)
  end.

Definition logRow (l : Logger) (err : Hex.hex_error) (c : respCount) : event :=
  EvErrorw l "Unable to read fulfillment"
    [FErr "err" (ErrHex err); FStr "reqID" (RequestID c)].

Definition logQuery (l : Logger) (err : error) : event :=
  EvErrorw l "Unable to read previous confirmed fulfillments" [FErr "err" err].

(** [var reqID [32]byte; copy(reqID[:], b)] *)
Definition reqID_of (b : list Z) : list Z := Go.copy Go.zero32 b.

(** The body of [for _, c := range counts] in [GetStartingResponseCountsV1]. *)
Definition stepV1 (l : Logger) (respCounts : gmap (list Z) Z) (c : respCount)
  : M (gmap (list Z) Z) :=
  r <- decodeRequestID c ;;
  match r with
  | inl err => emit (logRow l err c) ;;; ret respCounts
  | inr b => ret (<[reqID_of b := Go.uint64 (Count c)]> respCounts)
  end.

(** The body of the loop in [GetStartingResponseCountsV2]. *)
Definition stepV2 (l : Logger) (respCounts : gmap string Z) (c : respCount)
  : M (gmap string Z) :=
  r <- decodeRequestID c ;;
  match r with
  | inl err => emit (logRow l err c) ;;; ret respCounts
  | inr b =>
      let bi := Go.big_SetBytes b in
      ret (<[Go.big_String bi := Go.uint64 (Count c)]> respCounts)
  end.

(** [for _, c := range counts { body }] over a map under construction. *)
Fixpoint range {S} (body : S -> respCount -> M S) (counts : list respCount)
  (s : S) : M S :=
  match counts with
  | [] => ret s
  | c :: counts' => s' <- body s c ;; range body counts' s'
  end.

Definition GetStartingResponseCountsV1 (q : Q) (l : Logger)
  (chainID evmFinalityDepth : Z) : M (gmap (list Z) Z) :=
  r <- getRespCounts q chainID evmFinalityDepth ;;
  match r with
  | inl err => emit (logQuery l err) ;;; ret ∅
  | inr counts => range (stepV1 l) counts ∅
  end.

Definition GetStartingResponseCountsV2 (q : Q) (l : Logger)
  (chainID evmFinalityDepth : Z) : M (gmap string Z) :=
  r <- getRespCounts q chainID evmFinalityDepth ;;
  match r with
  | inl err => emit (logQuery l err) ;;; ret ∅
  | inr counts => range (stepV2 l) counts ∅
  end.

(** ** Package vrf: the delegate *)

Record VRFSpec := { EVMChainID : Z; CoordinatorAddress : string }.

(** The kinds of task the delegate tells apart by type assertion. *)
Inductive Task :=
| VRFTaskV2
| VRFTask
| OtherTask (kind : string).

(** [pipeline.Spec]: all the delegate reads is what [Pipeline()] answers. *)
Record PipelineSpec := { Pipeline : error + list Task }.

Record Job := {
  ID : Z;
  ExternalJobID : string;
  JobVRFSpec : option VRFSpec;
  JobPipelineSpec : option PipelineSpec }.

(** [evm.Chain]: [chain.Client().ChainID()] and
    [chain.Config().EvmFinalityDepth()]. *)
Record Chain := { ClientChainID : Z; EvmFinalityDepth : Z }.

Section Delegate.

(** The generated contract bindings. *)
Variables Coordinator CoordinatorV2 Aggregator : Type.
Variable NewVRFCoordinator : string -> Chain -> error + Coordinator.
Variable NewVRFCoordinatorV2 : string -> Chain -> error + CoordinatorV2.
Variable LINKETHFEED : CoordinatorV2 -> error + string.
Variable NewAggregatorV3Interface : string -> Chain -> error + Aggregator.

Record Delegate := {
  d_q : Q;
  d_cc : Z -> error + Chain;
  d_lggr : Logger }.

Record listenerV1 := {
  l1_cfg : Chain;
  l1_l : Logger;
  l1_coordinator : Coordinator;
  l1_job : Job;
  l1_respCount : gmap (list Z) Z }.

Record listenerV2 := {
  l2_cfg : Chain;
  l2_l : Logger;
  l2_coordinator : CoordinatorV2;
  l2_aggregator : Aggregator;
  l2_job : Job;
  l2_respCount : gmap string Z }.

(** The two implementations of [job.ServiceCtx] the delegate builds. *)
Inductive job_ServiceCtx :=
| ListenerV1 (l : listenerV1)
| ListenerV2 (l : listenerV2).

(** The body of [for _, task := range pl.Tasks] and what follows it. *)
Fixpoint resolve (d : Delegate) (jb : Job) (chain : Chain)
  (coordinator : Coordinator) (coordinatorV2 : CoordinatorV2)
  (lV1 lV2 : Logger) (tasks : list Task) : M (error + list job_ServiceCtx) :=
  match tasks with
  | [] => ret (inl ErrNoVRFTask)
  | VRFTaskV2 :: _ =>
      linkEthFeedAddress <-? call EvLINKETHFEED (LINKETHFEED coordinatorV2) ;;
      aggregator <-? call (EvNewAggregatorV3Interface linkEthFeedAddress)
                       (NewAggregatorV3Interface linkEthFeedAddress chain) ;;
      respCount <- GetStartingResponseCountsV2 (d_q d) lV2
                     (Go.big_Uint64 (ClientChainID chain))
                     (EvmFinalityDepth chain) ;;
      ret (inr [ListenerV2 {| l2_cfg := chain; l2_l := lV2;
                              l2_coordinator := coordinatorV2;
                              l2_aggregator := aggregator;
                              l2_job := jb;
                              l2_respCount := respCount |}])
  | VRFTask :: _ =>
      respCount <- GetStartingResponseCountsV1 (d_q d) lV1
                     (Go.big_Uint64 (ClientChainID chain))
                     (EvmFinalityDepth chain) ;;
      ret (inr [ListenerV1 {| l1_cfg := chain; l1_l := lV1;
                              l1_coordinator := coordinator;
                              l1_job := jb;
                              l1_respCount := respCount |}])
  | OtherTask _ :: tasks' =>
      resolve d jb chain coordinator coordinatorV2 lV1 lV2 tasks'
  end.

Definition ServicesForSpec (d : Delegate) (jb : Job)
  : M (error + list job_ServiceCtx) :=
  match JobVRFSpec jb, JobPipelineSpec jb with
  | Some spec, Some ps =>
      pl <-? ret (Pipeline ps) ;;
      chain <-? call (EvChainGet (EVMChainID spec)) (d_cc d (EVMChainID spec)) ;;
      coordinator <-? call (EvNewVRFCoordinator (CoordinatorAddress spec))
                        (NewVRFCoordinator (CoordinatorAddress spec) chain) ;;
      coordinatorV2 <-? call (EvNewVRFCoordinatorV2 (CoordinatorAddress spec))
                          (NewVRFCoordinatorV2 (CoordinatorAddress spec) chain) ;;
      let l := Logger_With (d_lggr d)
                 [FInt "jobID" (ID jb);
                  FStr "externalJobID" (ExternalJobID jb);
                  FStr "coordinatorAddress" (CoordinatorAddress spec)] in
      let lV1 := Logger_Named l "VRFListener" in
      let lV2 := Logger_Named l "VRFListenerV2" in
      resolve d jb chain coordinator coordinatorV2 lV1 lV2 pl
  | _, _ => ret (inl ErrInvalidSpec)
  end.

End Delegate.

Arguments ListenerV1 {_ _ _} l.
Arguments ListenerV2 {_ _ _} l.

(** [NewDelegate]: the delegate keeps the store handle made from [db], the
    chain set and the logger it is given. *)
Definition NewDelegate (db : Q) (chainSet : Z -> error + Chain)
  (lggr : Logger) : Delegate :=
  {| d_q := db; d_cc := chainSet; d_lggr := lggr |}.

(** [AfterJobCreated] and [BeforeJobDeleted] have empty bodies. *)
Definition AfterJobCreated (d : Delegate) (spec : Job) : M unit := ret tt.
Definition BeforeJobDeleted (d : Delegate) (spec : Job) : M unit := ret tt.

(** ** Package services: [Service], [ServiceCtx] and the adapter *)

Module Services.

(** [context.Context], as far as a callee can observe it. *)
Record Context := { ctx_cancelled : bool; ctx_deadline : option Z }.

(** An implementation of [Service] with state [T]: each method answers
    [nil] or an error and leaves a new state. *)
Class Service (T : Type) := {
  Start : T -> option error * T;
  Close : T -> option error * T;
  Ready : T -> option error * T;
  Healthy : T -> option error * T }.

Class ServiceCtx (T : Type) := {
  StartCtx : Context -> T -> option error * T;
  CloseCtx : T -> option error * T;
  ReadyCtx : T -> option error * T;
  HealthyCtx : T -> option error * T }.

Record adapter (T : Type) := { service : T }.
Arguments service {T} a.

Definition NewServiceCtx {T} `{Service T} (s : T) : adapter T :=
  {| service := s |}.

(** A method of the adapter: the call goes to the held service, which
    the adapter keeps holding. *)
Definition forward {T} (op : T -> option error * T) (a : adapter T)
  : option error * adapter T :=
  let (err, s') := op (service a) in (err, {| service := s' |}).

#[global] Instance adapter_ServiceCtx {T} `{Service T} : ServiceCtx (adapter T) := {
  StartCtx _ a := forward Start a;
  CloseCtx a := forward Close a;
  ReadyCtx a := forward Ready a;
  HealthyCtx a := forward Healthy a }.

End Services.

(** ** Sample stores and collaborators *)

Module Sample.

(** A 32-byte identifier whose last byte is [n], and its JSON text as the
    store holds it. *)
Definition hash32 (n : Z) : list Z := replicate 31 0 ++ [n].

Definition json_hash (b : list Z) : string :=
  Go.quoted ("0x" ++ Hex.EncodeToString b).

Definition tx (id r : Z) (st : string) (chain : Z) : eth_tx :=
  {| et_id := id; et_meta_RequestID := Some (json_hash (hash32 r));
     et_state := st; et_evm_chain_id := chain |}.

Definition attempt (id : Z) (h : string) : eth_tx_attempt :=
  {| eta_eth_tx_id := id; eta_hash := h |}.

Definition receipt (h : string) (b : Z) : eth_receipt :=
  {| er_tx_hash := h; er_block_number := b |}.

Definition head (chain n : Z) : evm_head :=
  {| eh_evm_chain_id := chain; eh_number := n |}.

(** In flight: A twice, B once.  Confirmed within 50 blocks of head 1000:
    A once, C three times.  (A, B, C end in 10, 11, 12.) *)
Definition db_union : DB :=
  {| eth_txes :=
       [tx 1 10 "unconfirmed" 1; tx 2 10 "in_progress" 1;
        tx 3 11 "unstarted" 1; tx 4 10 "confirmed" 1;
        tx 5 12 "confirmed" 1; tx 6 12 "confirmed" 1;
        tx 7 12 "confirmed" 1];
     eth_tx_attempts :=
       [attempt 4 "h4"; attempt 5 "h5"; attempt 6 "h6"; attempt 7 "h7"];
     eth_receipts :=
       [receipt "h4" 950; receipt "h5" 960; receipt "h6" 970;
        receipt "h7" 1000];
     evm_heads := [head 1 1000; head 1 999] |}.

(** One in-flight transaction tagged with the identifier [b]. *)
Definition db_single (b : list Z) (chain : Z) : DB :=
  {| eth_txes :=
       [{| et_id := 1; et_meta_RequestID := Some (json_hash b);
           et_state := "unconfirmed"; et_evm_chain_id := chain |}];
     eth_tx_attempts := []; eth_receipts := []; evm_heads := [] |}.

(** A transaction whose tag is the empty JSON string, then a sound one. *)
Definition db_short : DB :=
  {| eth_txes :=
       [{| et_id := 1; et_meta_RequestID := Some (Go.quoted EmptyString);
           et_state := "unconfirmed"; et_evm_chain_id := 1 |};
        tx 2 10 "unconfirmed" 1];
     eth_tx_attempts := []; eth_receipts := []; evm_heads := [] |}.

(** A tag that is not hex, between two sound ones. *)
Definition db_malformed : DB :=
  {| eth_txes :=
       [tx 1 10 "unconfirmed" 1;
        {| et_id := 2; et_meta_RequestID := Some (Go.quoted "0xzz");
           et_state := "unconfirmed"; et_evm_chain_id := 1 |};
        tx 3 11 "unconfirmed" 1];
     eth_tx_attempts := []; eth_receipts := []; evm_heads := [] |}.

(** One transaction tagged [r] in state [st], with one attempt and its
    receipt in block [b], on a chain whose latest head is [h]. *)
Definition db_one (r st : string) (b chain h : Z) : DB :=
  {| eth_txes :=
       [{| et_id := 1; et_meta_RequestID := Some r;
           et_state := st; et_evm_chain_id := chain |}];
     eth_tx_attempts := [attempt 1 "h1"];
     eth_receipts := [receipt "h1" b];
     evm_heads := [head chain h] |}.



Definition lggr : Logger := {| lg_name := ["VRF"]; lg_fields := [] |}.

Definition refused : error := ErrExternal "connection refused".

Definition chain137 : Chain := {| ClientChainID := 137; EvmFinalityDepth := 50 |}.

Definition spec : VRFSpec :=
  {| EVMChainID := 137; CoordinatorAddress := "0xc0" |}.

Definition job (tasks : list Task) : Job :=
  {| ID := 7; ExternalJobID := "0eec7e1d";
     JobVRFSpec := Some spec;
     JobPipelineSpec := Some {| Pipeline := inr tasks |} |}.

(** A job whose VRF spec is nil. *)
Definition job_no_spec : Job :=
  {| ID := 8; ExternalJobID := "51a4c1f0";
     JobVRFSpec := None;
     JobPipelineSpec := Some {| Pipeline := inr [VRFTaskV2] |} |}.

(** One in-flight transaction tagged with the identifier 1. *)
Definition store_one : Q := Connected (db_single (hash32 1) 137).

Definition delegate (q : Q) : Delegate :=
  {| d_q := q; d_cc := fun _ => inr chain137; d_lggr := lggr |}.

(** A delegate whose chain set knows no chain. *)
Definition delegate_no_chain (q : Q) : Delegate :=
  {| d_q := q; d_cc := fun _ => inl (ErrExternal "chain not found");
     d_lggr := lggr |}.

(** A store whose first tag is too short to slice. *)
Definition store_short : Q := Connected db_short.

(** An in-flight transaction with a receipt 10 blocks below the head. *)
Definition db_both : DB := db_one "r" "unconfirmed" 990 1 1000.



(** Bindings that always succeed, and a price feed that may not. *)
Definition bindOK (addr : string) (c : Chain) : error + string := inr addr.
Definition feedOK (co : string) : error + string := inr "0xfeed"%string.
Definition feedDown (co : string) : error + string :=
  inl (ErrExternal "execution reverted").

Definition services (q : Q) (feed : string -> error + string) (jb : Job) :=
  ServicesForSpec string string string bindOK bindOK feed bindOK
    (delegate q) jb.

(** A service that may be started once: its state is whether it runs. *)
Definition once_Start (running : bool) : option error * bool :=
  if running then (Some (ErrExternal "already started"), true)
  else (None, true).

Definition once_Close (running : bool) : option error * bool :=
  if running then (None, false)
  else (Some (ErrExternal "not started"), false).

Definition once_Ready (running : bool) : option error * bool :=
  if running then (None, true)
  else (Some (ErrExternal "not started"), false).

#[global] Instance once_Service : Services.Service bool := {
  Services.Start := once_Start;
  Services.Close := once_Close;
  Services.Ready := once_Ready;
  Services.Healthy := once_Ready }.

Definition cancelled : Services.Context :=
  {| Services.ctx_cancelled := true; Services.ctx_deadline := None |}.

End Sample.

(** ** Definitions used to state the properties *)

(** The count listed for [r] in a set of rows, 0 when there is none. *)
Definition count_for (r : string) (rows : list respCount) : Z :=
  foldr Z.add 0 (Count <$> filter (fun c => RequestID c = r) rows).

(** The big unsigned integer whose big-endian bytes are [b]:
    the sum of [b_i * 256^(len - 1 - i)]. *)
Fixpoint be_value (b : list Z) : Z :=
  match b with
  | [] => 0
  | x :: b' => x * 256 ^ Z.of_nat (length b') + be_value b'
  end.



Definition is_vrf (t : Task) : bool :=
  match t with OtherTask _ => false | _ => true end.

(** The first V2-style or V1-style task of a pipeline. *)
Definition first_vrf (tasks : list Task) : option Task :=
  List.find is_vrf tasks.

(** No double quote occurs in [s]. *)
Fixpoint quote_free (s : string) : Prop :=
  match s with
  | EmptyString => True
  | String c s' => c <> Go.dquote /\ quote_free s'
  end.

(** Decoding the two digits written for the byte [v] gives [v] back. *)
Definition digits_ok (v : Z) : bool :=
  match Hex.fromHexChar (Hex.hexdigit (Z.shiftr v 4)),
        Hex.fromHexChar (Hex.hexdigit (Z.land v 15)) with
  | Some a, Some b => Z.lor (Z.shiftl a 4) b =? v
  | _, _ => false
  end.

(** The row can be sliced: two bytes or more are left once the quotes
    are out, so [decodeRequestID] answers. *)
Definition decodes (c : respCount) : Prop :=
  exists r, decodeRequestID c = ret r.

(** The first 32 bytes of [b], followed by zero bytes up to 32 bytes. *)
Definition padded32 (b : list Z) : list Z :=
  take 32 b ++ replicate (32 - length b) 0.

(** The V2 key of a decoded payload. *)
Definition keyV2 (b : list Z) : string := Go.big_String (Go.big_SetBytes b).

(** The loop body both functions share, up to the key written. *)
Definition step_with {K} `{Countable K} (key : list Z -> K) (l : Logger)
  (respCounts : gmap K Z) (c : respCount) : M (gmap K Z) :=
  r <- decodeRequestID c ;;
  match r with
  | inl err => emit (logRow l err c) ;;; ret respCounts
  | inr b => ret (<[key b := Go.uint64 (Count c)]> respCounts)
  end.

(** The loggers [lV1] and [lV2] the delegate derives for a job. *)
Definition job_logger (d : Delegate) (jb : Job) (spec : VRFSpec)
  (name : string) : Logger :=
  Logger_Named
    (Logger_With (d_lggr d)
       [FInt "jobID" (ID jb);
        FStr "externalJobID" (ExternalJobID jb);
        FStr "coordinatorAddress" (CoordinatorAddress spec)])
    name.

(** The store with the state of every transaction rewritten. *)
Definition restate (f : string -> string) (db : DB) : DB :=
  {| eth_txes :=
       (fun et => {| et_id := et_id et;
                     et_meta_RequestID := et_meta_RequestID et;
                     et_state := f (et_state et);
                     et_evm_chain_id := et_evm_chain_id et |})
         <$> eth_txes db;
     eth_tx_attempts := eth_tx_attempts db;
     eth_receipts := eth_receipts db;
     evm_heads := evm_heads db |}.

(** Two bytes or more are left of the tag once its first two double quotes
    are out. *)
Definition sliceable (c : respCount) : Prop :=
  (2 <= String.length
          (Go.strings_Replace (RequestID c) Go.dquote EmptyString 2))%nat.

(** What the loop reports for one row: one entry when its payload is not
    hex, nothing otherwise. *)
Definition row_log (l : Logger) (c : respCount) : list event :=
  match result (decodeRequestID c) with
  | Done (inl e) => [logRow l e c]
  | _ => []
  end.

(** The pipeline cut down to its first VRF task. *)
Definition first_vrf_only (tasks : list Task) : list Task :=
  match first_vrf tasks with
  | Some t => [t]
  | None => []
  end.

(** The calls that reach the store or its logger. *)
Definition store_event (ev : event) : bool :=
  match ev with
  | EvSelect _ _ | EvErrorw _ _ _ => true
  | _ => false
  end.

(** Two hex digit values make a byte. *)
Definition nibbles_ok (a b : Z) : bool :=
  (0 <=? Z.lor (Z.shiftl a 4) b) && (Z.lor (Z.shiftl a 4) b <? 256).

(** A call on a service, and runs of calls on a service and on its
    adapter, with the answers in order. *)
Inductive op :=
| OpStart (ctx : Services.Context)
| OpClose
| OpReady
| OpHealthy.

Definition do_service {T} `{Services.Service T} (o : op) (s : T)
  : option error * T :=
  match o with
  | OpStart _ => Services.Start s
  | OpClose => Services.Close s
  | OpReady => Services.Ready s
  | OpHealthy => Services.Healthy s
  end.

Definition do_serviceCtx {T} `{Services.ServiceCtx T} (o : op) (s : T)
  : option error * T :=
  match o with
  | OpStart ctx => Services.StartCtx ctx s
  | OpClose => Services.CloseCtx s
  | OpReady => Services.ReadyCtx s
  | OpHealthy => Services.HealthyCtx s
  end.

Fixpoint run_ops {T} (step : op -> T -> option error * T) (ops : list op)
  (s : T) : list (option error) * T :=
  match ops with
  | [] => ([], s)
  | o :: ops' =>
      let (err, s') := step o s in
      let (errs, s'') := run_ops step ops' s' in
      (err :: errs, s'')
  end.

(** * Properties *)

(** ** The primitives on small inputs *)

Example DecodeString_mixed_case :
  Hex.DecodeString "00ff1A" = inr [0; 255; 26].
Proof. reflexivity. Qed.

Example DecodeString_odd_length : Hex.DecodeString "0" = inl Hex.ErrLength.
Proof. reflexivity. Qed.

Example DecodeString_invalid_byte :
  Hex.DecodeString "0g1" = inl (Hex.InvalidByteError 103).
Proof. reflexivity. Qed.

Example EncodeToString_lowercase :
  Hex.EncodeToString [0; 255; 26] = "00ff1a"%string.
Proof. reflexivity. Qed.

Example big_String_256 : Go.big_String (Go.big_SetBytes [1; 0]) = "256"%string.
Proof. reflexivity. Qed.

Example big_String_empty : Go.big_String (Go.big_SetBytes []) = "0"%string.
Proof. reflexivity. Qed.

Example strings_Replace_outer_quotes :
  Go.strings_Replace (Go.quoted "0x01") Go.dquote EmptyString 2 = "0x01"%string.
Proof. reflexivity. Qed.

Example slice_from_short : Go.slice_from "7" 2 = None.
Proof. reflexivity. Qed.

Example copy_short : Go.copy [0; 0; 0; 0] [7; 8] = [7; 8; 0; 0].
Proof. reflexivity. Qed.

Example copy_long : Go.copy [0; 0] [7; 8; 9] = [7; 8].
Proof. reflexivity. Qed.

Section MonadFacts.
Context {A B : Type}.

Lemma bind_ret (a : A) (k : A -> M B) : bind (ret a) k = k a.
Proof. unfold bind, ret. destruct (k a) as [t r]. reflexivity. Qed.

Lemma bind_panic (w : string) (k : A -> M B) : bind (panic w) k = panic w.
Proof. reflexivity. Qed.

Lemma result_bind_done (m : M A) (k : A -> M B) t a :
  m = (t, Done a) -> result (bind m k) = result (k a).
Proof. intros ->. unfold bind, result. destruct (k a). reflexivity. Qed.

Lemma result_bind_panicked (m : M A) (k : A -> M B) w :
  result m = Panicked w -> result (bind m k) = Panicked w.
Proof. destruct m as [t [a|w']]; simpl; [discriminate|]. intros [= ->]. reflexivity. Qed.
End MonadFacts.

(** ** Strings, hex and byte copies *)

Section Strings.

Lemma substring_all (s : string) : String.substring 0 (String.length s) s = s.
Proof. induction s as [|c s IH]; simpl; [reflexivity | by rewrite IH]. Qed.

Lemma slice_from_two (p q : ascii) (s : string) :
  Go.slice_from (String p (String q s)) 2 = Some s.
Proof.
  unfold Go.slice_from. simpl.
  by rewrite Nat.sub_0_r, substring_all.
Qed.

Lemma Replace_quote_free (s : string) (n : nat) :
  quote_free s -> Go.strings_Replace s Go.dquote EmptyString n = s.
Proof.
  revert n. induction s as [|c s IH]; intros n; simpl; [reflexivity|].
  intros [Hc Hs]. destruct n as [|n]; [reflexivity|].
  destruct (Ascii.eqb_spec c Go.dquote) as [->|_]; [contradiction|].
  by rewrite IH.
Qed.

Lemma Replace_one_trailing (s : string) :
  quote_free s ->
  Go.strings_Replace (s ++ String Go.dquote EmptyString) Go.dquote EmptyString 1
  = s.
Proof.
  induction s as [|c s IH]; simpl; [reflexivity|].
  intros [Hc Hs].
  destruct (Ascii.eqb_spec c Go.dquote) as [->|_]; [contradiction|].
  by rewrite IH.
Qed.

(** The two quotes of a JSON string are the two that are taken out. *)
Lemma Replace_quoted (s : string) :
  quote_free s ->
  Go.strings_Replace (Go.quoted s) Go.dquote EmptyString 2 = s.
Proof.
  intros Hs. unfold Go.quoted. simpl.
  by rewrite Replace_one_trailing.
Qed.

End Strings.

Section HexFacts.

Lemma hexdigit_not_quote (v : Z) : Hex.hexdigit v <> Go.dquote.
Proof.
  unfold Hex.hexdigit. generalize (Z.to_nat v) as n. intros n.
  do 17 (destruct n as [|n]; [vm_compute; discriminate|]).
  vm_compute; discriminate.
Qed.

Lemma Encode_quote_free (b : list Z) : quote_free (Hex.EncodeToString b).
Proof.
  induction b as [|v b IH]; simpl; [exact I|].
  repeat split; auto using hexdigit_not_quote.
Qed.

Lemma digits_ok_all : forallb digits_ok (seqZ 0 256) = true.
Proof. vm_compute. reflexivity. Qed.

Lemma digits_ok_byte (v : Z) : Go.is_byte v -> digits_ok v = true.
Proof.
  intros Hv. pose proof digits_ok_all as Hall.
  rewrite forallb_forall in Hall. apply Hall.
  apply list_elem_of_In, elem_of_seqZ. unfold Go.is_byte in Hv. lia.
Qed.

Lemma Decode_Encode (b : list Z) :
  Forall Go.is_byte b -> Hex.DecodeString (Hex.EncodeToString b) = inr b.
Proof.
  induction 1 as [|v b Hv _ IH]; simpl; [reflexivity|].
  apply digits_ok_byte in Hv. unfold digits_ok in Hv.
  destruct (Hex.fromHexChar (Hex.hexdigit (Z.shiftr v 4))) as [hi|]; [|discriminate].
  destruct (Hex.fromHexChar (Hex.hexdigit (Z.land v 15))) as [lo|]; [|discriminate].
  apply Z.eqb_eq in Hv. by rewrite IH, Hv.
Qed.

End HexFacts.

Section Bytes.

Lemma reqID_of_length (b : list Z) : length (reqID_of b) = 32%nat.
Proof.
  unfold reqID_of, Go.copy, Go.zero32.
  rewrite length_app, length_take, length_drop, length_replicate. lia.
Qed.

Lemma reqID_of_short (b : list Z) :
  (length b <= 32)%nat -> reqID_of b = b ++ replicate (32 - length b) 0.
Proof.
  intros Hb. unfold reqID_of, Go.copy, Go.zero32.
  rewrite length_replicate, take_ge by lia.
  by rewrite drop_replicate.
Qed.

Lemma reqID_of_long (b : list Z) :
  (32 <= length b)%nat -> reqID_of b = take 32 b.
Proof.
  intros Hb. unfold reqID_of, Go.copy, Go.zero32.
  rewrite length_replicate, drop_ge by (rewrite length_replicate; lia).
  by rewrite app_nil_r.
Qed.

Lemma reqID_of_32 (b : list Z) : length b = 32%nat -> reqID_of b = b.
Proof.
  intros Hb. rewrite reqID_of_short by lia.
  rewrite Hb. simpl. by rewrite app_nil_r.
Qed.

Lemma fold_SetBytes (b : list Z) (acc : Z) :
  fold_left (fun a x => a * 256 + x) b acc
  = acc * 256 ^ Z.of_nat (length b) + be_value b.
Proof.
  revert acc. induction b as [|x b IH]; intros acc; simpl fold_left.
  - simpl. lia.
  - rewrite IH. cbn [be_value length].
    rewrite Nat2Z.inj_succ, Z.pow_succ_r by lia. lia.
Qed.

Lemma SetBytes_be_value (b : list Z) : Go.big_SetBytes b = be_value b.
Proof. unfold Go.big_SetBytes. rewrite fold_SetBytes. lia. Qed.

(** A decimal reader gets the number back out of [big_String]. *)
Lemma parse_big_String (x : Z) :
  Z.of_int <$> NilZero.int_of_string (Go.big_String x) = Some x.
Proof.
  unfold Go.big_String. rewrite NilZero.isi.
  - simpl. by rewrite DecimalZ.of_to.
  - destruct x; simpl; try discriminate.
    intros [= Hp]. by apply (DecimalPos.Unsigned.to_uint_nonnil p).
  - destruct x; simpl; try discriminate.
    intros [= Hp]. by apply (DecimalPos.Unsigned.to_uint_nonnil p).
Qed.

End Bytes.

(** ** The query *)

Section Query.

Lemma filter_key_fmap_NoDup (f : string -> respCount) (r : string)
  (ks : list string) :
  (forall k, RequestID (f k) = k) -> NoDup ks ->
  filter (fun c => RequestID c = r) (f <$> ks)
  = if decide (r ∈ ks) then [f r] else [].
Proof.
  intros Hf. induction 1 as [|k ks Hk Hnd IH]; [reflexivity|].
  rewrite fmap_cons, filter_cons, IH, Hf.
  destruct (decide (k = r)) as [Heq|Hne].
  - subst k. rewrite (decide_False (P := r ∈ ks)) by done.
    by rewrite (decide_True (P := r ∈ r :: ks)) by apply list_elem_of_here.
  - destruct (decide (r ∈ ks)) as [Hin|Hout].
    + by rewrite (decide_True (P := r ∈ k :: ks))
        by by apply list_elem_of_further.
    + rewrite (decide_False (P := r ∈ k :: ks)); [done|].
      intros [?|?]%elem_of_cons; [congruence|done].
Qed.

Lemma filter_eq_absent (r : string) (ks : list string) :
  r ∉ ks -> filter (fun x => x = r) ks = [].
Proof.
  induction ks as [|k ks IH]; [reflexivity|].
  intros Hr. rewrite filter_cons, decide_False by set_solver.
  apply IH. set_solver.
Qed.

(** Each key has one group, holding the number of its occurrences. *)
Lemma count_for_group_count (r : string) (ks : list string) :
  count_for r (group_count ks)
  = Z.of_nat (length (filter (fun x => x = r) ks)).
Proof.
  unfold count_for, group_count.
  rewrite filter_key_fmap_NoDup by (done || apply NoDup_remove_dups).
  destruct (decide (r ∈ remove_dups ks)) as [Hin|Hin]; simpl.
  - lia.
  - rewrite elem_of_remove_dups in Hin.
    by rewrite filter_eq_absent.
Qed.

Lemma filter_omap_length {A} (g : A -> option string) (r : string)
  (l : list A) :
  length (filter (fun x => x = r) (omap g l))
  = length (filter (fun a => g a = Some r) l).
Proof.
  induction l as [|a l IH]; [reflexivity|].
  cbn [omap list_omap]. rewrite (filter_cons _ a).
  destruct (g a) as [k|] eqn:Hg.
  - rewrite filter_cons.
    destruct (decide (k = r)) as [->|Hne].
    + rewrite decide_True by done. simpl. by rewrite IH.
    + rewrite decide_False by congruence. exact IH.
  - rewrite decide_False by congruence. exact IH.
Qed.

Lemma count_for_app (r : string) (rows1 rows2 : list respCount) :
  count_for r (rows1 ++ rows2) = count_for r rows1 + count_for r rows2.
Proof.
  unfold count_for. rewrite filter_app, fmap_app, foldr_app.
  generalize (Count <$> filter (fun c => RequestID c = r) rows1) as l.
  induction l as [|x l IH]; simpl; lia.
Qed.

(** In-flight rows: every tagged transaction in one of the three states. *)
Lemma count_for_unconfirmed (db : DB) (r : string) :
  count_for r (unconfirmedQuery db)
  = Z.of_nat (length (filter
      (fun et => et_meta_RequestID et = Some r /\ in_flight et = true)
      (eth_txes db))).
Proof.
  unfold unconfirmedQuery, unconfirmed_ids.
  rewrite count_for_group_count, filter_omap_length.
  do 2 f_equal. apply list_filter_iff. intros et.
  destruct (in_flight et); [|split; [discriminate|intros [_ [=]]]].
  tauto.
Qed.

(** Confirmed rows: every joined receipt of a tagged transaction at or
    above the latest head less the depth. *)
Lemma count_for_confirmed (db : DB) (chainID depth h : Z) (r : string) :
  latest_head db chainID = Some h ->
  count_for r (confirmedQuery db chainID depth)
  = Z.of_nat (length (filter
      (fun j : eth_tx * eth_tx_attempt * eth_receipt =>
         et_meta_RequestID j.1.1 = Some r /\ h - depth <= er_block_number j.2)
      (confirmed_join db))).
Proof.
  intros Hh. unfold confirmedQuery, confirmed_ids.
  rewrite count_for_group_count, filter_omap_length, Hh.
  do 2 f_equal. apply list_filter_iff. intros j.
  unfold within_finality. case_bool_decide; [tauto|].
  split; [discriminate|]. intros [_ ?]. contradiction.
Qed.

Lemma group_count_one (k : string) :
  group_count [k] = [{| RequestID := k; Count := 1 |}].
Proof.
  unfold group_count. simpl.
  rewrite filter_cons, decide_True by done.
  reflexivity.
Qed.

Lemma query_db_single (b : list Z) (chain chainID depth : Z) :
  query (Sample.db_single b chain) chainID depth
  = [{| RequestID := Sample.json_hash b; Count := 1 |}].
Proof.
  unfold query, unconfirmedQuery, confirmedQuery.
  change (unconfirmed_ids (Sample.db_single b chain))
    with [Sample.json_hash b].
  change (confirmed_ids (Sample.db_single b chain) chainID depth)
    with (@nil string).
  by rewrite group_count_one.
Qed.

End Query.

(** ** The loop over the rows *)

Section Range.
Context {K : Type} `{Countable K}.
Variable key : list Z -> K.
Variable l : Logger.

Implicit Types (m : gmap K Z) (c : respCount) (rows : list respCount).

Lemma decode_cases c :
  decodeRequestID c = panic "slice bounds out of range" \/ decodes c.
Proof.
  unfold decodes, decodeRequestID.
  destruct (Go.slice_from _ 2); [right; eauto | left; reflexivity].
Qed.

Lemma step_inr m c b :
  decodeRequestID c = ret (inr b) ->
  step_with key l m c = ret (<[key b := Go.uint64 (Count c)]> m).
Proof. intros Hd. unfold step_with. by rewrite Hd. Qed.

Lemma step_inl m c e :
  decodeRequestID c = ret (inl e) ->
  step_with key l m c = ([logRow l e c], Done m).
Proof. intros Hd. unfold step_with. by rewrite Hd. Qed.

Lemma step_panic m c w :
  decodeRequestID c = panic w -> step_with key l m c = panic w.
Proof. intros Hd. unfold step_with. by rewrite Hd. Qed.

Lemma range_cons_done rows m c t m' :
  step_with key l m c = (t, Done m') ->
  range (step_with key l) (c :: rows) m
  = (t ++ trace (range (step_with key l) rows m'),
     result (range (step_with key l) rows m')).
Proof.
  intros Hs. simpl. rewrite Hs. unfold bind, trace, result.
  by destruct (range _ rows m').
Qed.

(** Rows that can be sliced never stop the loop. *)
Lemma range_done rows m :
  Forall decodes rows ->
  exists m', result (range (step_with key l) rows m) = Done m'.
Proof.
  intros Hrows. revert m.
  induction Hrows as [|c rows [[e|b] Hc] _ IH]; intros m.
  - by exists m.
  - rewrite (range_cons_done _ _ _ _ _ (step_inl m c e Hc)). apply IH.
  - rewrite (range_cons_done _ _ _ _ _ (step_inr m c b Hc)). apply IH.
Qed.

(** An entry is left alone by rows that decode to other keys. *)
Lemma range_lookup_other rows m m' k :
  (forall c b, c ∈ rows -> decodeRequestID c = ret (inr b) -> key b <> k) ->
  result (range (step_with key l) rows m) = Done m' ->
  m' !! k = m !! k.
Proof.
  revert m. induction rows as [|c rows IH]; intros m Hk.
  - by intros [= ->].
  - destruct (decode_cases c) as [Hc|[[e|b] Hc]].
    + simpl. by rewrite (step_panic m c _ Hc).
    + rewrite (range_cons_done _ _ _ _ _ (step_inl m c e Hc)).
      apply IH. intros c' b' ?. apply Hk. set_solver.
    + rewrite (range_cons_done _ _ _ _ _ (step_inr m c b Hc)).
      intros Hr. rewrite (IH _ (fun c' b' Hin => Hk c' b' ltac:(set_solver)) Hr).
      apply lookup_insert_ne. apply (Hk c b); [set_solver | done].
Qed.

Lemma range_app rows1 rows2 m m1 :
  result (range (step_with key l) rows1 m) = Done m1 ->
  result (range (step_with key l) (rows1 ++ rows2) m)
  = result (range (step_with key l) rows2 m1).
Proof.
  revert m. induction rows1 as [|c rows1 IH]; intros m.
  - by intros [= ->].
  - destruct (decode_cases c) as [Hc|[[e|b] Hc]].
    + simpl. by rewrite (step_panic m c _ Hc).
    + rewrite <- app_comm_cons.
      rewrite !(range_cons_done _ _ _ _ _ (step_inl m c e Hc)). apply IH.
    + rewrite <- app_comm_cons.
      rewrite !(range_cons_done _ _ _ _ _ (step_inr m c b Hc)). apply IH.
Qed.

(** The entry of a key holds the count of the last row decoding to it. *)
Lemma range_last_wins pre post c b m :
  Forall decodes (pre ++ post) ->
  decodeRequestID c = ret (inr b) ->
  (forall c' b', c' ∈ post -> decodeRequestID c' = ret (inr b') ->
                 key b' <> key b) ->
  exists m', result (range (step_with key l) (pre ++ c :: post) m) = Done m'
             /\ m' !! key b = Some (Go.uint64 (Count c)).
Proof.
  intros [Hpre Hpost]%Forall_app Hc Hother.
  destruct (range_done pre m Hpre) as [m1 Hm1].
  rewrite (range_app _ _ _ _ Hm1).
  rewrite (range_cons_done _ _ _ _ _ (step_inr m1 c b Hc)).
  destruct (range_done post (<[key b := Go.uint64 (Count c)]> m1) Hpost)
    as [m' Hm'].
  exists m'. split; [done|].
  rewrite (range_lookup_other _ _ _ _ Hother Hm').
  apply lookup_insert_eq.
Qed.

(** An entry always holds the count of one row, never a sum of two. *)
Lemma range_value_of_a_row rows m m' k v :
  result (range (step_with key l) rows m) = Done m' ->
  m' !! k = Some v ->
  m !! k = Some v \/
  exists c b, c ∈ rows /\ decodeRequestID c = ret (inr b) /\ key b = k
              /\ v = Go.uint64 (Count c).
Proof.
  revert m. induction rows as [|c rows IH]; intros m.
  - intros [= ->] Hv. by left.
  - destruct (decode_cases c) as [Hc|[[e|b] Hc]].
    + simpl. by rewrite (step_panic m c _ Hc).
    + rewrite (range_cons_done _ _ _ _ _ (step_inl m c e Hc)).
      intros Hr Hv. destruct (IH _ Hr Hv) as [?|(c'&b'&?&?&?&?)]; [by left|].
      right. exists c', b'. set_solver.
    + rewrite (range_cons_done _ _ _ _ _ (step_inr m c b Hc)).
      intros Hr Hv. destruct (IH _ Hr Hv) as [Hm|(c'&b'&?&?&?&?)].
      * destruct (decide (key b = k)) as [Hk|Hk].
        -- right. exists c, b. rewrite <- Hk, lookup_insert_eq in Hm.
           set_solver.
        -- left. by rewrite lookup_insert_ne in Hm.
      * right. exists c', b'. set_solver.
Qed.

(** A row too short to slice stops the loop, whatever follows it. *)
Lemma range_short_row pre post c m :
  Forall decodes pre ->
  decodeRequestID c = panic "slice bounds out of range" ->
  result (range (step_with key l) (pre ++ c :: post) m)
  = Panicked "slice bounds out of range".
Proof.
  intros Hpre Hc. destruct (range_done pre m Hpre) as [m1 Hm1].
  rewrite (range_app _ _ _ _ Hm1). simpl.
  by rewrite (step_panic m1 c _ Hc).
Qed.

End Range.

(** ** The starting response counts *)

Section StartingCounts.

Lemma stepV1_step_with l : stepV1 l = step_with reqID_of l.
Proof. reflexivity. Qed.

Lemma stepV2_step_with l : stepV2 l = step_with keyV2 l.
Proof. reflexivity. Qed.

Lemma V1_connected db l chainID depth :
  GetStartingResponseCountsV1 (Connected db) l chainID depth
  = (EvSelect chainID depth
       :: trace (range (stepV1 l) (query db chainID depth) ∅),
     result (range (stepV1 l) (query db chainID depth) ∅)).
Proof.
  unfold GetStartingResponseCountsV1, getRespCounts, Select, call, bindE.
  simpl. unfold trace, result. by destruct (range _ _ _).
Qed.

Lemma V2_connected db l chainID depth :
  GetStartingResponseCountsV2 (Connected db) l chainID depth
  = (EvSelect chainID depth
       :: trace (range (stepV2 l) (query db chainID depth) ∅),
     result (range (stepV2 l) (query db chainID depth) ∅)).
Proof.
  unfold GetStartingResponseCountsV2, getRespCounts, Select, call, bindE.
  simpl. unfold trace, result. by destruct (range _ _ _).
Qed.

Lemma decode_json_hash (b : list Z) (cnt : Z) :
  Forall Go.is_byte b ->
  decodeRequestID {| RequestID := Sample.json_hash b; Count := cnt |}
  = ret (inr b).
Proof.
  intros Hb. unfold decodeRequestID, Sample.json_hash. cbn [RequestID].
  change ("0x" ++ Hex.EncodeToString b)%string
    with (String "0" (String "x" (Hex.EncodeToString b))).
  rewrite Replace_quoted.
  - by rewrite slice_from_two, Decode_Encode.
  - cbn [quote_free].
    repeat split; try discriminate. apply Encode_quote_free.
Qed.

Lemma reqID_of_pad (b : list Z) :
  reqID_of b = take 32 b ++ replicate (32 - length b) 0.
Proof.
  unfold reqID_of, Go.copy, Go.zero32.
  by rewrite length_replicate, drop_replicate.
Qed.

(** Rows that can all be sliced: a map comes back.  ([step_inl]: a row that
    is not hex is reported once and leaves the map as it was.) *)
Lemma malformed_rows_skipped l db chainID depth :
  Forall decodes (query db chainID depth) ->
  exists m, result (GetStartingResponseCountsV1 (Connected db) l chainID depth)
            = Done m.
Proof.
  intros Hrows. rewrite V1_connected. cbn [result snd].
  rewrite stepV1_step_with. by apply range_done.
Qed.

Example malformed_row_example :
  GetStartingResponseCountsV1 (Connected Sample.db_malformed) Sample.lggr 1 50
  = ([EvSelect 1 50;
      EvErrorw Sample.lggr "Unable to read fulfillment"
        [FErr "err" (ErrHex (Hex.InvalidByteError 122));
         FStr "reqID" (Go.quoted "0xzz")]],
     Done {[ Sample.hash32 10 := 1; Sample.hash32 11 := 1 ]}).
Proof. vm_compute. reflexivity. Qed.

End StartingCounts.

(** Whatever the order in which the store hands over the rows of
    [Sample.db_union], the entry of A is never the sum 3: it is the count
    of one row. *)
Lemma union_order_never_sums (rows : list respCount) (m : gmap (list Z) Z) :
  rows ≡ₚ query Sample.db_union 1 50 ->
  result (range (stepV1 Sample.lggr) rows ∅) = Done m ->
  m !! Sample.hash32 10 <> Some 3.
Proof.
  intros Hperm Hm Hv. rewrite stepV1_step_with in Hm.
  destruct (range_value_of_a_row reqID_of Sample.lggr rows ∅ m _ 3 Hm Hv)
    as [Hempty|(c & b & Hc & Hd & Hk & Hcnt)];
    [by rewrite lookup_empty in Hempty|].
  rewrite Hperm in Hc. vm_compute in Hc.
  repeat (apply elem_of_cons in Hc as [Hc|Hc];
          [subst c; vm_compute in Hd; injection Hd as <-;
           first [ by vm_compute in Hcnt | by vm_compute in Hk ]|]).
  by apply elem_of_nil in Hc.
Qed.

(** C1 on the rows of [Sample.db_union]: in flight A:2 and B:1, confirmed
    A:1 and C:3, all within the finality window.  The two rows of A are
    never added: each row overwrites the entry of its key, so the entry of
    A is 1 when the in-flight rows are read first, 2 when the confirmed
    rows are read first, and 3 in no order at all. *)
Theorem C1_entry_is_one_row_never_the_sum :
  unconfirmedQuery Sample.db_union
  = [{| RequestID := Sample.json_hash (Sample.hash32 10); Count := 2 |};
     {| RequestID := Sample.json_hash (Sample.hash32 11); Count := 1 |}]
  /\ confirmedQuery Sample.db_union 1 50
     = [{| RequestID := Sample.json_hash (Sample.hash32 10); Count := 1 |};
        {| RequestID := Sample.json_hash (Sample.hash32 12); Count := 3 |}]
  /\ result (range (stepV1 Sample.lggr)
               (unconfirmedQuery Sample.db_union
                  ++ confirmedQuery Sample.db_union 1 50) ∅)
     = Done {[ Sample.hash32 10 := 1; Sample.hash32 11 := 1;
               Sample.hash32 12 := 3 ]}
  /\ result (range (stepV1 Sample.lggr)
               (confirmedQuery Sample.db_union 1 50
                  ++ unconfirmedQuery Sample.db_union) ∅)
     = Done {[ Sample.hash32 10 := 2; Sample.hash32 11 := 1;
               Sample.hash32 12 := 3 ]}
  /\ result (range (stepV2 Sample.lggr)
               (unconfirmedQuery Sample.db_union
                  ++ confirmedQuery Sample.db_union 1 50) ∅)
     = Done {[ "10"%string := 1; "11"%string := 1; "12"%string := 3 ]}
  /\ result (range (stepV2 Sample.lggr)
               (confirmedQuery Sample.db_union 1 50
                  ++ unconfirmedQuery Sample.db_union) ∅)
     = Done {[ "10"%string := 2; "11"%string := 1; "12"%string := 3 ]}
  /\ result (GetStartingResponseCountsV1 (Connected Sample.db_union)
               Sample.lggr 1 50)
     = Done {[ Sample.hash32 10 := 1; Sample.hash32 11 := 1;
               Sample.hash32 12 := 3 ]}
  /\ result (GetStartingResponseCountsV2 (Connected Sample.db_union)
               Sample.lggr 1 50)
     = Done {[ "10"%string := 1; "11"%string := 1; "12"%string := 3 ]}
  /\ (forall rows m,
        rows ≡ₚ query Sample.db_union 1 50 ->
        result (range (stepV1 Sample.lggr) rows ∅) = Done m ->
        m !! Sample.hash32 10 <> Some 3).
Proof.
  repeat (split; [vm_compute; reflexivity|]).
  intros rows m Hperm Hm. by apply (union_order_never_sums rows m).
Qed.

(** C2 at a row the code cannot slice.  The tag of the first transaction
    is the empty JSON string; nothing is left once its quotes are out, the
    slice expression panics, and the sound row after it is never read. *)
Theorem C2_short_row_panics :
  GetStartingResponseCountsV1 (Connected Sample.db_short) Sample.lggr 1 50
  = ([EvSelect 1 50], Panicked "slice bounds out of range")
  /\ GetStartingResponseCountsV2 (Connected Sample.db_short) Sample.lggr 1 50
     = ([EvSelect 1 50], Panicked "slice bounds out of range").
Proof. split; vm_compute; reflexivity. Qed.

(** C3: the round trip of a 32-byte identifier.  Written as 0x and
    lowercase hex between double quotes, it decodes to the same 32 bytes,
    which are the V1 key; the V2 key is the decimal text of the integer
    those bytes spell big-endian, and a decimal reader gets that integer
    back from it. *)
Theorem C3_roundtrip (b : list Z) (cnt chain chainID depth : Z) (l : Logger) :
  length b = 32%nat ->
  Forall Go.is_byte b ->
  decodeRequestID {| RequestID := Sample.json_hash b; Count := cnt |}
  = ret (inr b)
  /\ GetStartingResponseCountsV1 (Connected (Sample.db_single b chain)) l
       chainID depth
     = ([EvSelect chainID depth], Done {[ b := 1 ]})
  /\ GetStartingResponseCountsV2 (Connected (Sample.db_single b chain)) l
       chainID depth
     = ([EvSelect chainID depth], Done {[ Go.big_String (be_value b) := 1 ]})
  /\ Z.of_int <$> NilZero.int_of_string (Go.big_String (be_value b))
     = Some (be_value b).
Proof.
  intros Hlen Hb. split; [by apply decode_json_hash|]. repeat split.
  - rewrite V1_connected, query_db_single. cbn [range].
    rewrite stepV1_step_with, (step_inr _ _ _ _ b) by by apply decode_json_hash.
    rewrite reqID_of_32 by done. reflexivity.
  - rewrite V2_connected, query_db_single. cbn [range].
    rewrite stepV2_step_with, (step_inr _ _ _ _ b) by by apply decode_json_hash.
    unfold keyV2. rewrite SetBytes_be_value. reflexivity.
  - apply parse_big_String.
Qed.

Lemma C3_roundtrip_witness :
  decodeRequestID {| RequestID := Sample.json_hash (Sample.hash32 1);
                     Count := 1 |}
  = ret (inr (Sample.hash32 1))
  /\ GetStartingResponseCountsV1
       (Connected (Sample.db_single (Sample.hash32 1) 137)) Sample.lggr 137 50
     = ([EvSelect 137 50], Done {[ Sample.hash32 1 := 1 ]})
  /\ GetStartingResponseCountsV2
       (Connected (Sample.db_single (Sample.hash32 1) 137)) Sample.lggr 137 50
     = ([EvSelect 137 50], Done {[ "1"%string := 1 ]})
  /\ Z.of_int <$> NilZero.int_of_string "1" = Some 1.
Proof.
  apply (C3_roundtrip (Sample.hash32 1) 1 137 137 50 Sample.lggr).
  - reflexivity.
  - unfold Go.is_byte. repeat constructor; lia.
Defined.

(** C4: a failing store query.  Both functions make one [Errorw] call on
    their logger, with the message of the source and the error under the
    key [err], and answer the empty map; the delegate is handed no error, and
    goes on to build its listener around the empty map (for V2 once the
    price feed is bound). *)
Theorem C4_query_error_gives_empty_map
  (Coordinator CoordinatorV2 Aggregator : Type)
  (LINKETHFEED : CoordinatorV2 -> error + string)
  (NewAggregatorV3Interface : string -> Chain -> error + Aggregator)
  (e : error) (l lV1 lV2 : Logger) (chainID depth : Z)
  (cc : Z -> error + Chain) (jb : Job) (chain : Chain)
  (co : Coordinator) (co2 : CoordinatorV2) (feed : string) (agg : Aggregator)
  (tasks : list Task) :
  LINKETHFEED co2 = inr feed ->
  NewAggregatorV3Interface feed chain = inr agg ->
  GetStartingResponseCountsV1 (Unavailable e) l chainID depth
  = ([EvSelect chainID depth; EvErrorw l "Unable to read previous confirmed fulfillments"
         [FErr "err" e]], Done ∅)
  /\ GetStartingResponseCountsV2 (Unavailable e) l chainID depth
     = ([EvSelect chainID depth; EvErrorw l "Unable to read previous confirmed fulfillments"
         [FErr "err" e]], Done ∅)
  /\ resolve Coordinator CoordinatorV2 Aggregator LINKETHFEED
       NewAggregatorV3Interface
       {| d_q := Unavailable e; d_cc := cc; d_lggr := l |}
       jb chain co co2 lV1 lV2 (VRFTask :: tasks)
     = ([EvSelect (Go.big_Uint64 (ClientChainID chain)) (EvmFinalityDepth chain);
         EvErrorw lV1 "Unable to read previous confirmed fulfillments"
           [FErr "err" e]],
        Done (inr [ListenerV1
                     {| l1_cfg := chain; l1_l := lV1; l1_coordinator := co;
                        l1_job := jb; l1_respCount := ∅ |}]))
  /\ resolve Coordinator CoordinatorV2 Aggregator LINKETHFEED
       NewAggregatorV3Interface
       {| d_q := Unavailable e; d_cc := cc; d_lggr := l |}
       jb chain co co2 lV1 lV2 (VRFTaskV2 :: tasks)
     = ([EvLINKETHFEED; EvNewAggregatorV3Interface feed;
         EvSelect (Go.big_Uint64 (ClientChainID chain)) (EvmFinalityDepth chain);
         EvErrorw lV2 "Unable to read previous confirmed fulfillments"
           [FErr "err" e]],
        Done (inr [ListenerV2
                     {| l2_cfg := chain; l2_l := lV2; l2_coordinator := co2;
                        l2_aggregator := agg; l2_job := jb;
                        l2_respCount := ∅ |}])).
Proof.
  intros Hfeed Hagg. repeat split.
  simpl. unfold call, bindE. simpl. rewrite Hfeed. simpl. rewrite Hagg.
  reflexivity.
Qed.

Lemma C4_query_error_gives_empty_map_witness :
  GetStartingResponseCountsV1 (Unavailable Sample.refused) Sample.lggr 137 50
  = ([EvSelect 137 50; EvErrorw Sample.lggr "Unable to read previous confirmed fulfillments"
         [FErr "err" Sample.refused]], Done ∅)
  /\ GetStartingResponseCountsV2 (Unavailable Sample.refused) Sample.lggr 137 50
     = ([EvSelect 137 50; EvErrorw Sample.lggr "Unable to read previous confirmed fulfillments"
         [FErr "err" Sample.refused]], Done ∅)
  /\ resolve string string string Sample.feedOK Sample.bindOK
       (Sample.delegate (Unavailable Sample.refused)) (Sample.job [VRFTask]) Sample.chain137
       "0xc0"%string "0xc0"%string Sample.lggr Sample.lggr [VRFTask]
     = ([EvSelect 137 50; EvErrorw Sample.lggr "Unable to read previous confirmed fulfillments"
         [FErr "err" Sample.refused]],
        Done (inr [ListenerV1
                     {| l1_cfg := Sample.chain137; l1_l := Sample.lggr;
                        l1_coordinator := "0xc0"%string;
                        l1_job := Sample.job [VRFTask];
                        l1_respCount := ∅ |}]))
  /\ resolve string string string Sample.feedOK Sample.bindOK
       (Sample.delegate (Unavailable Sample.refused)) (Sample.job [VRFTask]) Sample.chain137
       "0xc0"%string "0xc0"%string Sample.lggr Sample.lggr [VRFTaskV2]
     = ([EvLINKETHFEED; EvNewAggregatorV3Interface "0xfeed";
         EvSelect 137 50; EvErrorw Sample.lggr "Unable to read previous confirmed fulfillments"
         [FErr "err" Sample.refused]],
        Done (inr [ListenerV2
                     {| l2_cfg := Sample.chain137; l2_l := Sample.lggr;
                        l2_coordinator := "0xc0"%string;
                        l2_aggregator := "0xfeed"%string;
                        l2_job := Sample.job [VRFTask];
                        l2_respCount := ∅ |}])).
Proof.
  apply (C4_query_error_gives_empty_map string string string
           Sample.feedOK Sample.bindOK Sample.refused Sample.lggr Sample.lggr Sample.lggr
           137 50 (fun _ => inr Sample.chain137) (Sample.job [VRFTask])
           Sample.chain137 "0xc0"%string "0xc0"%string "0xfeed"%string
           "0xfeed"%string [VRFTask]); reflexivity.
Defined.

(** C9: the V1 key of a decoded payload.  The payload is copied from its
    first byte into 32 zero bytes: a shorter one is followed by zeros up to
    32 bytes, of a longer one only the first 32 bytes are kept. *)
Theorem C9_key_is_padded_or_truncated (l : Logger) (m : gmap (list Z) Z)
  (c : respCount) (b : list Z) :
  decodeRequestID c = ret (inr b) ->
  stepV1 l m c = ret (<[padded32 b := Go.uint64 (Count c)]> m)
  /\ length (padded32 b) = 32%nat
  /\ (forall i, (i < length b)%nat -> (i < 32)%nat ->
                padded32 b !! i = b !! i)
  /\ (forall i, (length b <= i < 32)%nat -> padded32 b !! i = Some 0)
  /\ ((length b <= 32)%nat ->
      padded32 b = b ++ replicate (32 - length b) 0)
  /\ ((32 <= length b)%nat -> padded32 b = take 32 b).
Proof.
  intros Hc. unfold padded32. repeat split.
  - rewrite stepV1_step_with, (step_inr _ _ _ _ b Hc). by rewrite reqID_of_pad.
  - rewrite <- reqID_of_pad. apply reqID_of_length.
  - intros i Hi Hi'.
    rewrite lookup_app_l by (rewrite length_take; lia).
    by apply lookup_take_lt.
  - intros i Hi.
    rewrite lookup_app_r by (rewrite length_take; lia).
    apply lookup_replicate_2. rewrite length_take. lia.
  - intros Hb. by rewrite take_ge.
  - intros Hb.
    replace (32 - length b)%nat with 0%nat by lia. apply app_nil_r.
Qed.

Lemma C9_key_is_padded_or_truncated_witness :
  stepV1 Sample.lggr ∅ {| RequestID := Go.quoted "0xabcd"; Count := 4 |}
  = ret (<[padded32 [171; 205] := Go.uint64 4]> ∅)
  /\ length (padded32 [171; 205]) = 32%nat
  /\ (forall i, (i < 2)%nat -> (i < 32)%nat ->
                padded32 [171; 205] !! i = [171; 205] !! i)
  /\ (forall i, (2 <= i < 32)%nat -> padded32 [171; 205] !! i = Some 0)
  /\ ((2 <= 32)%nat -> padded32 [171; 205] = [171; 205] ++ replicate 30 0)
  /\ ((32 <= 2)%nat -> padded32 [171; 205] = take 32 [171; 205]).
Proof.
  apply (C9_key_is_padded_or_truncated Sample.lggr ∅
           {| RequestID := Go.quoted "0xabcd"; Count := 4 |} [171; 205]).
  vm_compute. reflexivity.
Defined.

(** ** The delegate *)

Section DelegateFacts.

Context {Coordinator CoordinatorV2 Aggregator : Type}.
Variable NewVRFCoordinator : string -> Chain -> error + Coordinator.
Variable NewVRFCoordinatorV2 : string -> Chain -> error + CoordinatorV2.
Variable LINKETHFEED : CoordinatorV2 -> error + string.
Variable NewAggregatorV3Interface : string -> Chain -> error + Aggregator.

Abbreviation resolve' :=
  (resolve Coordinator CoordinatorV2 Aggregator LINKETHFEED
     NewAggregatorV3Interface).
Abbreviation ServicesForSpec' :=
  (ServicesForSpec Coordinator CoordinatorV2 Aggregator NewVRFCoordinator
     NewVRFCoordinatorV2 LINKETHFEED NewAggregatorV3Interface).


Lemma first_vrf_elem (tasks : list Task) (t : Task) :
  first_vrf tasks = Some t -> t ∈ tasks /\ is_vrf t = true.
Proof.
  intros [Hin Hv]%find_some. split; [by apply list_elem_of_In | done].
Qed.




End DelegateFacts.

Section DelegateClaims.

Context {Coordinator CoordinatorV2 Aggregator : Type}.
Variable NewVRFCoordinator : string -> Chain -> error + Coordinator.
Variable NewVRFCoordinatorV2 : string -> Chain -> error + CoordinatorV2.
Variable LINKETHFEED : CoordinatorV2 -> error + string.
Variable NewAggregatorV3Interface : string -> Chain -> error + Aggregator.

Abbreviation Services :=
  (ServicesForSpec Coordinator CoordinatorV2 Aggregator NewVRFCoordinator
     NewVRFCoordinatorV2 LINKETHFEED NewAggregatorV3Interface).

(** C7: a job without its VRF spec or without its pipeline spec.  The
    invalid-spec error is the answer and no collaborator has been called:
    no chain looked up, no contract bound, no store query, no listener. *)
Theorem C7_missing_spec_fails_at_once (d : Delegate) (jb : Job) :
  JobVRFSpec jb = None \/ JobPipelineSpec jb = None ->
  Services d jb = ([], Done (inl ErrInvalidSpec)).
Proof.
  unfold ServicesForSpec.
  intros [Hn|Hn]; rewrite Hn; [reflexivity|].
  by destruct (JobVRFSpec jb).
Qed.

End DelegateClaims.

Lemma C7_missing_spec_fails_at_once_witness :
  Sample.services Sample.store_one Sample.feedOK Sample.job_no_spec
  = ([], Done (inl ErrInvalidSpec)).
Proof.
  apply (C7_missing_spec_fails_at_once Sample.bindOK Sample.bindOK
           Sample.feedOK Sample.bindOK (Sample.delegate Sample.store_one)
           Sample.job_no_spec).
  left. reflexivity.
Defined.

(** ** The finality window and the chain identifier *)

Section Window.







End Window.



(** ** The adapter *)

(** C8: the adapter made by [NewServiceCtx].  Whatever the context, also a
    cancelled one, [Start] answers what the service's [Start] answers and
    leaves the service as its [Start] leaves it; [Close], [Ready] and
    [Healthy] likewise go to the service unchanged. *)
Theorem C8_adapter_forwards {T : Type} `{Services.Service T} (s : T)
  (ctx ctx' : Services.Context) :
  Services.StartCtx ctx (Services.NewServiceCtx s)
  = (fst (Services.Start s), Services.NewServiceCtx (snd (Services.Start s)))
  /\ Services.CloseCtx (Services.NewServiceCtx s)
     = (fst (Services.Close s), Services.NewServiceCtx (snd (Services.Close s)))
  /\ Services.ReadyCtx (Services.NewServiceCtx s)
     = (fst (Services.Ready s), Services.NewServiceCtx (snd (Services.Ready s)))
  /\ Services.HealthyCtx (Services.NewServiceCtx s)
     = (fst (Services.Healthy s),
        Services.NewServiceCtx (snd (Services.Healthy s)))
  /\ Services.StartCtx ctx (Services.NewServiceCtx s)
     = Services.StartCtx ctx' (Services.NewServiceCtx s).
Proof.
  unfold Services.NewServiceCtx. cbn. unfold Services.forward. cbn.
  repeat split.
  - by destruct (Services.Start s).
  - by destruct (Services.Close s).
  - by destruct (Services.Ready s).
  - by destruct (Services.Healthy s).
Qed.

Example adapter_start_cancelled :
  Services.StartCtx Sample.cancelled (Services.NewServiceCtx false)
  = (None, Services.NewServiceCtx true)
  /\ Services.StartCtx Sample.cancelled (Services.NewServiceCtx true)
     = (Some (ErrExternal "already started"), Services.NewServiceCtx true).
Proof. split; reflexivity. Qed.

(** * Further properties of the query *)

Section QueryFacts.

Lemma elem_of_group_count (c : respCount) (ks : list string) :
  c ∈ group_count ks -> RequestID c ∈ ks /\ 1 <= Count c.
Proof.
  unfold group_count. intros (k & -> & Hk)%list_elem_of_fmap.
  rewrite elem_of_remove_dups in Hk. simpl. split; [exact Hk|].
  apply list_elem_of_split in Hk as (l1 & l2 & ->).
  rewrite filter_app, filter_cons, decide_True by done.
  rewrite length_app. cbn [length]. lia.
Qed.

Lemma confirmed_join_tx (db : DB) (j : eth_tx * eth_tx_attempt * eth_receipt) :
  j ∈ confirmed_join db -> j.1.1 ∈ eth_txes db.
Proof.
  unfold confirmed_join.
  intros (et & Hj & Het)%list_elem_of_bind.
  apply list_elem_of_bind in Hj as (eta & Hj & _).
  apply list_elem_of_bind in Hj as (er & Hj & _).
  apply list_elem_of_singleton in Hj. by subst j.
Qed.

Lemma omap_all_None {A B} (g : A -> option B) (l : list A) :
  (forall a, a ∈ l -> g a = None) -> omap g l = [].
Proof.
  induction l as [|a l IH]; [reflexivity|]. intros Hg.
  cbn [omap list_omap]. rewrite (Hg a) by apply list_elem_of_here.
  apply IH. intros a' Ha'. apply Hg. by apply list_elem_of_further.
Qed.

Lemma filter_length_mono {A} (P Q : A -> Prop)
  `{forall a, Decision (P a)} `{forall a, Decision (Q a)} (l : list A) :
  (forall a, P a -> Q a) ->
  (length (filter P l) <= length (filter Q l))%nat.
Proof.
  intros HPQ. induction l as [|a l IH]; [reflexivity|].
  rewrite !filter_cons.
  destruct (decide (P a)) as [HP|HP].
  - rewrite decide_True by auto. cbn [length]. lia.
  - destruct (decide (Q a)); cbn [length]; lia.
Qed.

Lemma confirmed_join_restate f db :
  confirmed_join (restate f db)
  = (fun j : eth_tx * eth_tx_attempt * eth_receipt =>
       ({| et_id := et_id j.1.1;
           et_meta_RequestID := et_meta_RequestID j.1.1;
           et_state := f (et_state j.1.1);
           et_evm_chain_id := et_evm_chain_id j.1.1 |}, j.1.2, j.2))
      <$> confirmed_join db.
Proof.
  unfold confirmed_join, restate. cbn [eth_txes eth_tx_attempts eth_receipts].
  induction (eth_txes db) as [|et txs IH]; [reflexivity|].
  rewrite fmap_cons, !bind_cons, fmap_app, IH. f_equal.
  cbn [et_id].
  induction (filter (fun eta => eta_eth_tx_id eta = et_id et)
               (eth_tx_attempts db)) as [|eta etas IHa]; [reflexivity|].
  rewrite !bind_cons, fmap_app, IHa. f_equal.
  induction (filter (fun er => er_tx_hash er = eta_hash eta)
               (eth_receipts db)) as [|er ers IHr]; [reflexivity|].
  rewrite !bind_cons, fmap_app, IHr. reflexivity.
Qed.

Lemma confirmedQuery_restate f db chainID depth :
  confirmedQuery (restate f db) chainID depth = confirmedQuery db chainID depth.
Proof.
  unfold confirmedQuery, confirmed_ids. rewrite confirmed_join_restate.
  change (latest_head (restate f db) chainID) with (latest_head db chainID).
  apply (f_equal group_count).
  induction (confirmed_join db) as [|j' js IH]; [reflexivity|].
  rewrite fmap_cons. cbn [omap list_omap]. rewrite IH. reflexivity.
Qed.

Lemma group_count_tags_NoDup (ks : list string) :
  NoDup (RequestID <$> group_count ks).
Proof.
  unfold group_count. rewrite <- list_fmap_compose.
  replace (_ <$> remove_dups ks) with (remove_dups ks);
    [apply NoDup_remove_dups|].
  induction (remove_dups ks) as [|k l IH]; [reflexivity|].
  rewrite fmap_cons, <- IH. reflexivity.
Qed.

Lemma filter_tag_at_most_one (r : string) (rows : list respCount) :
  NoDup (RequestID <$> rows) ->
  (length (filter (fun c => RequestID c = r) rows) <= 1)%nat.
Proof.
  induction rows as [|c rows IH]; [cbn; lia|].
  rewrite fmap_cons. intros [Hc Hnd]%NoDup_cons.
  rewrite filter_cons. destruct (decide (RequestID c = r)) as [Hr|Hr];
    [|by apply IH].
  cbn [length].
  replace (filter (fun c => RequestID c = r) rows) with (@nil respCount);
    [cbn; lia|].
  symmetry. clear IH Hnd. induction rows as [|c' rows IH]; [reflexivity|].
  rewrite fmap_cons in Hc. apply not_elem_of_cons in Hc as [Hne Hc].
  rewrite filter_cons, decide_False by congruence. by apply IH.
Qed.

End QueryFacts.

(** Every row the query hands back carries the tag of a transaction of the
    store and a count of at least one: a transaction without a tag gives no
    row. *)
Theorem query_rows_are_tags (db : DB) (chainID depth : Z) (c : respCount) :
  c ∈ query db chainID depth ->
  1 <= Count c
  /\ exists et, et ∈ eth_txes db
                /\ et_meta_RequestID et = Some (RequestID c).
Proof.
  unfold query, unconfirmedQuery, confirmedQuery.
  intros [Hc|Hc]%elem_of_app; apply elem_of_group_count in Hc as [Hk Hn];
    (split; [exact Hn|]).
  - unfold unconfirmed_ids in Hk.
    apply list_elem_of_omap in Hk as (et & Het & Hm).
    exists et. split; [done|]. by destruct (in_flight et).
  - unfold confirmed_ids in Hk.
    apply list_elem_of_omap in Hk as (j & Hj & Hm).
    exists j.1.1. split; [by apply confirmed_join_tx|].
    by destruct (within_finality _ _ _).
Qed.

Lemma query_rows_are_tags_witness :
  1 <= 3
  /\ exists et, et ∈ eth_txes Sample.db_union
                /\ et_meta_RequestID et
                   = Some (Sample.json_hash (Sample.hash32 12)).
Proof.
  apply (query_rows_are_tags Sample.db_union 1 50
           {| RequestID := Sample.json_hash (Sample.hash32 12); Count := 3 |}).
  vm_compute. do 3 apply list_elem_of_further. apply list_elem_of_here.
Defined.

(** A store without a single tagged transaction: one query, no report, the
    empty map, for both encodings. *)
Theorem untagged_store_gives_empty_map (db : DB) (l : Logger)
  (chainID depth : Z) :
  (forall et, et ∈ eth_txes db -> et_meta_RequestID et = None) ->
  GetStartingResponseCountsV1 (Connected db) l chainID depth
  = ([EvSelect chainID depth], Done ∅)
  /\ GetStartingResponseCountsV2 (Connected db) l chainID depth
     = ([EvSelect chainID depth], Done ∅).
Proof.
  intros Hno.
  assert (Hq : query db chainID depth = []).
  { unfold query, unconfirmedQuery, confirmedQuery, unconfirmed_ids,
      confirmed_ids.
    rewrite !omap_all_None; [reflexivity| |].
    - intros j Hj. rewrite (Hno _ (confirmed_join_tx db j Hj)).
      by destruct (within_finality _ _ _).
    - intros et Het. rewrite (Hno et Het). by destruct (in_flight et). }
  by rewrite V1_connected, V2_connected, Hq.
Qed.

Lemma untagged_store_gives_empty_map_witness :
  GetStartingResponseCountsV1
    (Connected {| eth_txes :=
                    [{| et_id := 1; et_meta_RequestID := None;
                        et_state := "unconfirmed"; et_evm_chain_id := 1 |}];
                  eth_tx_attempts := []; eth_receipts := [];
                  evm_heads := [] |}) Sample.lggr 1 50
  = ([EvSelect 1 50], Done ∅)
  /\ GetStartingResponseCountsV2
       (Connected {| eth_txes :=
                       [{| et_id := 1; et_meta_RequestID := None;
                           et_state := "unconfirmed"; et_evm_chain_id := 1 |}];
                     eth_tx_attempts := []; eth_receipts := [];
                     evm_heads := [] |}) Sample.lggr 1 50
     = ([EvSelect 1 50], Done ∅).
Proof.
  apply untagged_store_gives_empty_map.
  intros et Het. apply list_elem_of_singleton in Het. by subst et.
Defined.

(** When the store holds no head of the chain asked for, the head is NULL
    and no receipt passes the comparison: only the in-flight rows are
    handed back. *)
Theorem no_head_no_confirmed_rows (db : DB) (chainID depth : Z) :
  (forall h, h ∈ evm_heads db -> eh_evm_chain_id h <> chainID) ->
  confirmedQuery db chainID depth = []
  /\ query db chainID depth = unconfirmedQuery db.
Proof.
  intros Hno.
  assert (Hh : latest_head db chainID = None).
  { unfold latest_head.
    replace (filter (fun h => eh_evm_chain_id h = chainID) (evm_heads db))
      with (@nil evm_head); [reflexivity|].
    symmetry. induction (evm_heads db) as [|h hs IH]; [reflexivity|].
    rewrite filter_cons, decide_False
      by (apply Hno, list_elem_of_here).
    apply IH. intros h' Hh'. by apply Hno, list_elem_of_further. }
  assert (Hc : confirmedQuery db chainID depth = []).
  { unfold confirmedQuery, confirmed_ids. rewrite Hh.
    by rewrite omap_all_None. }
  split; [exact Hc|]. unfold query. by rewrite Hc, app_nil_r.
Qed.

Lemma no_head_no_confirmed_rows_witness :
  confirmedQuery Sample.db_union 2 50 = []
  /\ query Sample.db_union 2 50 = unconfirmedQuery Sample.db_union.
Proof.
  apply no_head_no_confirmed_rows.
  intros h Hh. vm_compute in Hh.
  repeat (apply elem_of_cons in Hh as [->|Hh]; [discriminate|]).
  by apply elem_of_nil in Hh.
Defined.

(** A deeper finality window never lowers a confirmed count. *)
Theorem confirmed_count_grows_with_depth (db : DB) (chainID d1 d2 : Z)
  (r : string) :
  d1 <= d2 ->
  count_for r (confirmedQuery db chainID d1)
  <= count_for r (confirmedQuery db chainID d2).
Proof.
  intros Hd. destruct (latest_head db chainID) as [h|] eqn:Hh.
  - rewrite !(count_for_confirmed db chainID _ h r Hh).
    apply inj_le, filter_length_mono. intros j [? ?]. split; [done|lia].
  - unfold confirmedQuery, confirmed_ids. rewrite Hh.
    by rewrite !omap_all_None.
Qed.

Lemma confirmed_count_grows_with_depth_witness :
  count_for (Sample.json_hash (Sample.hash32 12))
    (confirmedQuery Sample.db_union 1 35)
  <= count_for (Sample.json_hash (Sample.hash32 12))
       (confirmedQuery Sample.db_union 1 50).
Proof.
  apply (confirmed_count_grows_with_depth Sample.db_union 1 35 50). lia.
Defined.

(** The confirmed sub-query does not read the state of a transaction:
    rewriting the states leaves its rows as they were.  So a transaction
    still in flight whose receipt is within the window is listed by both
    sub-queries. *)
Theorem confirmed_rows_ignore_state (db : DB) (f : string -> string)
  (chainID depth h : Z) (r : string)
  (j : eth_tx * eth_tx_attempt * eth_receipt) :
  latest_head db chainID = Some h ->
  j ∈ confirmed_join db ->
  et_meta_RequestID j.1.1 = Some r ->
  in_flight j.1.1 = true ->
  h - depth <= er_block_number j.2 ->
  confirmedQuery (restate f db) chainID depth = confirmedQuery db chainID depth
  /\ 1 <= count_for r (unconfirmedQuery db)
  /\ 1 <= count_for r (confirmedQuery db chainID depth).
Proof.
  intros Hh Hj Hr Hf Hb. split; [|split].
  - apply confirmedQuery_restate.
  - rewrite count_for_unconfirmed.
    pose proof (confirmed_join_tx db j Hj) as Het.
    apply list_elem_of_split in Het as (l1 & l2 & ->).
    rewrite filter_app, filter_cons, decide_True by done.
    rewrite length_app. cbn [length]. lia.
  - rewrite (count_for_confirmed db chainID depth h r Hh).
    apply list_elem_of_split in Hj as (l1 & l2 & ->).
    rewrite filter_app, filter_cons, decide_True by done.
    rewrite length_app. cbn [length]. lia.
Qed.

(** Each sub-query lists a tag at most once, so the rows handed back hold
    it at most twice. *)
Theorem query_lists_tag_at_most_twice (db : DB) (chainID depth : Z)
  (r : string) :
  NoDup (RequestID <$> unconfirmedQuery db)
  /\ NoDup (RequestID <$> confirmedQuery db chainID depth)
  /\ (length (filter (fun c => RequestID c = r) (query db chainID depth))
      <= 2)%nat.
Proof.
  split; [apply group_count_tags_NoDup|].
  split; [apply group_count_tags_NoDup|].
  unfold query. rewrite filter_app, length_app.
  pose proof (filter_tag_at_most_one r (unconfirmedQuery db)
                (group_count_tags_NoDup _)).
  pose proof (filter_tag_at_most_one r (confirmedQuery db chainID depth)
                (group_count_tags_NoDup _)).
  lia.
Qed.

(** * Further properties of the starting response counts *)

Section DecodeFacts.

Lemma slice_from_is_Some (s : string) :
  is_Some (Go.slice_from s 2) <-> (2 <= String.length s)%nat.
Proof.
  unfold Go.slice_from.
  destruct (Nat.leb_spec 2 (String.length s)) as [Hle|Hlt].
  - split; [done|]. intros _. by eexists.
  - split; [intros [? [=]]|lia].
Qed.

Lemma decodes_sliceable (c : respCount) : decodes c <-> sliceable c.
Proof.
  unfold decodes, sliceable, decodeRequestID.
  rewrite <- slice_from_is_Some.
  destruct (Go.slice_from _ 2) as [payload|].
  - split; [by eexists | intros _; by eexists].
  - split; [intros [r [=]] | intros [? [=]]].
Qed.

Lemma Forall_decodes_sliceable (rows : list respCount) :
  Forall decodes rows <-> Forall sliceable rows.
Proof. apply Forall_proper; [intros c; apply decodes_sliceable | done]. Qed.

(** Taking [n] single bytes out shortens a string by at most [n]. *)
Lemma Replace_length (s : string) (old : ascii) (n : nat) :
  (String.length s
   <= String.length (Go.strings_Replace s old EmptyString n) + n)%nat.
Proof.
  revert n. induction s as [|c s IH]; intros n; [cbn; lia|].
  destruct n as [|n]; [cbn; lia|]. cbn [Go.strings_Replace].
  destruct (Ascii.eqb c old).
  - change (String.length (String c s)
            <= String.length (Go.strings_Replace s old EmptyString n) + S n)%nat.
    cbn [String.length]. specialize (IH n). lia.
  - cbn [String.length]. specialize (IH (S n)). lia.
Qed.

Lemma string_pair_ind (P : string -> Prop) :
  P EmptyString ->
  (forall c, P (String c EmptyString)) ->
  (forall p q s, P s -> P (String p (String q s))) ->
  forall s, P s.
Proof.
  intros H0 H1 H2 s.
  cut (P s /\ forall c, P (String c s)); [tauto|].
  induction s as [|c s [IHs IHc]]; [by split|].
  split; [apply IHc|]. intros c'. by apply H2.
Qed.

Lemma fromHexChar_range (c : ascii) (a : Z) :
  Hex.fromHexChar c = Some a -> 0 <= a < 16.
Proof.
  unfold Hex.fromHexChar.
  generalize (Go.byte_of_ascii c) as n. intros n.
  destruct (Z.leb_spec 48 n), (Z.leb_spec n 57), (Z.leb_spec 97 n),
    (Z.leb_spec n 102), (Z.leb_spec 65 n), (Z.leb_spec n 70);
    cbn; intros [= <-]; lia.
Qed.

Lemma nibbles_ok_all :
  forallb (fun a => forallb (nibbles_ok a) (seqZ 0 16)) (seqZ 0 16) = true.
Proof. vm_compute. reflexivity. Qed.

Lemma nibbles_byte (a b : Z) :
  0 <= a < 16 -> 0 <= b < 16 -> Go.is_byte (Z.lor (Z.shiftl a 4) b).
Proof.
  intros Ha Hb. pose proof nibbles_ok_all as Hall.
  rewrite forallb_forall in Hall.
  assert (Hrow : forallb (nibbles_ok a) (seqZ 0 16) = true).
  { apply Hall, list_elem_of_In, elem_of_seqZ. lia. }
  rewrite forallb_forall in Hrow.
  assert (Hab : nibbles_ok a b = true).
  { apply Hrow, list_elem_of_In, elem_of_seqZ. lia. }
  unfold nibbles_ok in Hab. apply andb_prop in Hab as [H1 H2].
  apply Z.leb_le in H1. apply Z.ltb_lt in H2. unfold Go.is_byte. lia.
Qed.

(** What comes out of the decoder is bytes, one for two digits. *)
Lemma Decode_inr (s : string) :
  forall b, Hex.DecodeString s = inr b ->
            String.length s = (2 * length b)%nat /\ Forall Go.is_byte b.
Proof.
  induction s as [|c|p q s IH] using string_pair_ind; intros b.
  - intros [= <-]. by split.
  - cbn. destruct (Hex.fromHexChar c); discriminate.
  - cbn [Hex.DecodeString].
    destruct (Hex.fromHexChar p) as [hi|] eqn:Hp; [|discriminate].
    destruct (Hex.fromHexChar q) as [lo|] eqn:Hq; [|discriminate].
    destruct (Hex.DecodeString s) as [e|bs]; [discriminate|].
    intros [= <-]. destruct (IH bs eq_refl) as [Hlen Hbs]. split.
    + cbn [String.length length]. lia.
    + constructor; [|exact Hbs].
      apply nibbles_byte; by eapply fromHexChar_range.
Qed.

Lemma decodeRequestID_bytes (c : respCount) (b : list Z) :
  decodeRequestID c = ret (inr b) -> Forall Go.is_byte b.
Proof.
  unfold decodeRequestID. destruct (Go.slice_from _ 2) as [payload|];
    [|discriminate].
  intros [= Hd]. by apply Decode_inr in Hd as [_ ?].
Qed.

Lemma reqID_of_bytes (b : list Z) :
  Forall Go.is_byte b -> Forall Go.is_byte (reqID_of b).
Proof.
  intros Hb. rewrite reqID_of_pad. apply Forall_app. split.
  - by apply Forall_take.
  - apply Forall_replicate. unfold Go.is_byte. lia.
Qed.

Lemma be_value_bound (b : list Z) :
  Forall Go.is_byte b -> 0 <= be_value b < 256 ^ Z.of_nat (length b).
Proof.
  induction 1 as [|x b Hx _ IH]; [cbn; lia|].
  cbn [be_value length]. rewrite Nat2Z.inj_succ, Z.pow_succ_r by lia.
  unfold Go.is_byte in Hx. nia.
Qed.

Lemma be_value_inj (b b' : list Z) :
  length b = length b' -> Forall Go.is_byte b -> Forall Go.is_byte b' ->
  be_value b = be_value b' -> b = b'.
Proof.
  intros Hlen Hb. revert b' Hlen.
  induction Hb as [|x b Hx Hb IH]; intros [|x' b'] Hlen Hb' Hv;
    try discriminate; [reflexivity|].
  apply Forall_cons in Hb' as [Hx' Hb'].
  injection Hlen as Hlen. cbn [be_value] in Hv. rewrite <- Hlen in Hv.
  pose proof (be_value_bound b Hb) as B1.
  pose proof (be_value_bound b' Hb') as B2. rewrite <- Hlen in B2.
  assert (x = x') by nia. subst x'.
  f_equal. apply IH; [done..|lia].
Qed.

Lemma big_String_inj (x y : Z) : Go.big_String x = Go.big_String y -> x = y.
Proof.
  intros Hs. pose proof (parse_big_String x) as Hx.
  rewrite Hs, parse_big_String in Hx. by injection Hx.
Qed.

Lemma be_value_zeros (n : nat) : be_value (replicate n 0) = 0.
Proof. induction n as [|n IH]; [reflexivity|]. cbn [replicate be_value]. lia. Qed.

Lemma be_value_app (b1 b2 : list Z) :
  be_value (b1 ++ b2)
  = be_value b1 * 256 ^ Z.of_nat (length b2) + be_value b2.
Proof.
  induction b1 as [|x b1 IH]; [cbn [app be_value]; lia|].
  cbn [app be_value]. rewrite IH, length_app, Nat2Z.inj_add, Z.pow_add_r by lia.
  lia.
Qed.

End DecodeFacts.

Section RangeMore.
Context {K : Type} `{Countable K}.
Variable key : list Z -> K.
Variable l : Logger.

Implicit Types (m : gmap K Z) (c : respCount) (rows : list respCount).

(** The loop ends with a map only if every row could be sliced. *)
Lemma range_done_inv rows m m' :
  result (range (step_with key l) rows m) = Done m' -> Forall decodes rows.
Proof.
  revert m. induction rows as [|c rows IH]; intros m; [constructor|].
  destruct (decode_cases c) as [Hc|[[e|b] Hc]].
  - simpl. by rewrite (step_panic key l m c _ Hc).
  - rewrite (range_cons_done _ _ _ _ _ _ _ (step_inl key l m c e Hc)).
    intros Hr. constructor; [by eexists|]. by eapply IH.
  - rewrite (range_cons_done _ _ _ _ _ _ _ (step_inr key l m c b Hc)).
    intros Hr. constructor; [by eexists|]. by eapply IH.
Qed.

(** What the loop reports: the rows that are not hex, in their order. *)
Lemma range_trace rows m :
  Forall decodes rows ->
  trace (range (step_with key l) rows m) = rows ≫= row_log l.
Proof.
  intros Hrows. revert m.
  induction Hrows as [|c rows [[e|b] Hc] _ IH]; intros m; [reflexivity| |].
  - rewrite (range_cons_done _ _ _ _ _ _ _ (step_inl key l m c e Hc)).
    cbn [trace fst]. rewrite bind_cons. unfold row_log at 1. rewrite Hc.
    cbn. f_equal. apply IH.
  - rewrite (range_cons_done _ _ _ _ _ _ _ (step_inr key l m c b Hc)).
    cbn [trace fst]. rewrite bind_cons. unfold row_log at 1. rewrite Hc.
    cbn. apply IH.
Qed.

(** The loop never takes an entry out. *)
Lemma range_dom_grows rows m m' k :
  result (range (step_with key l) rows m) = Done m' ->
  is_Some (m !! k) -> is_Some (m' !! k).
Proof.
  revert m. induction rows as [|c rows IH]; intros m.
  - by intros [= ->].
  - destruct (decode_cases c) as [Hc|[[e|b] Hc]].
    + simpl. by rewrite (step_panic key l m c _ Hc).
    + rewrite (range_cons_done _ _ _ _ _ _ _ (step_inl key l m c e Hc)).
      apply IH.
    + rewrite (range_cons_done _ _ _ _ _ _ _ (step_inr key l m c b Hc)).
      intros Hr Hk. apply (IH _ Hr).
      rewrite lookup_insert. case_decide; [by eexists|done].
Qed.

(** Every row that decodes has its key in the map. *)
Lemma range_key_present rows m m' c b :
  result (range (step_with key l) rows m) = Done m' ->
  c ∈ rows -> decodeRequestID c = ret (inr b) ->
  is_Some (m' !! key b).
Proof.
  revert m. induction rows as [|c0 rows IH]; intros m Hr Hin Hd.
  - by apply elem_of_nil in Hin.
  - destruct (decode_cases c0) as [Hc|[[e0|b0] Hc]].
    + simpl in Hr. by rewrite (step_panic key l m c0 _ Hc) in Hr.
    + rewrite (range_cons_done _ _ _ _ _ _ _ (step_inl key l m c0 e0 Hc)) in Hr.
      apply elem_of_cons in Hin as [->|Hin];
        [unfold ret in Hc, Hd; congruence|].
      by apply (IH m).
    + rewrite (range_cons_done _ _ _ _ _ _ _ (step_inr key l m c0 b0 Hc)) in Hr.
      apply elem_of_cons in Hin as [->|Hin].
      * assert (b0 = b) as -> by (unfold ret in Hc, Hd; congruence).
        apply (range_dom_grows _ _ _ _ Hr).
        rewrite lookup_insert_eq. by eexists.
      * by apply (IH _ Hr).
Qed.

(** The entries of the map are the keys of the rows that decode. *)
Lemma range_entries rows m' k :
  result (range (step_with key l) rows ∅) = Done m' ->
  is_Some (m' !! k)
  <-> exists c b, c ∈ rows /\ decodeRequestID c = ret (inr b) /\ key b = k.
Proof.
  intros Hr. split.
  - intros [v Hv].
    destruct (range_value_of_a_row key l rows ∅ m' k v Hr Hv)
      as [He|(c & b & ? & ? & ? & _)]; [by rewrite lookup_empty in He|].
    by exists c, b.
  - intros (c & b & Hc & Hd & <-). by eapply range_key_present.
Qed.

End RangeMore.

(** A map comes back exactly when every row handed over by the store
    leaves two bytes or more once its first two double quotes are out;
    otherwise the call panics.  The same for both encodings. *)
Theorem counts_returned_iff_sliceable (db : DB) (l : Logger)
  (chainID depth : Z) :
  ((exists m,
       result (GetStartingResponseCountsV1 (Connected db) l chainID depth)
       = Done m)
   <-> Forall sliceable (query db chainID depth))
  /\ ((exists m,
          result (GetStartingResponseCountsV2 (Connected db) l chainID depth)
          = Done m)
      <-> Forall sliceable (query db chainID depth)).
Proof.
  rewrite V1_connected, V2_connected, stepV1_step_with, stepV2_step_with.
  cbn [result snd]. rewrite <- Forall_decodes_sliceable.
  split; (split; [intros [m Hm]; by eapply range_done_inv
                 | intros Hrows; by apply range_done]).
Qed.

(** Tags of four bytes or more can always be sliced: a store that holds
    only such tags never makes the call panic. *)
Theorem long_tags_never_panic (db : DB) (l : Logger) (chainID depth : Z) :
  (forall c, c ∈ query db chainID depth ->
             (4 <= String.length (RequestID c))%nat) ->
  (exists m1,
      result (GetStartingResponseCountsV1 (Connected db) l chainID depth)
      = Done m1)
  /\ (exists m2,
      result (GetStartingResponseCountsV2 (Connected db) l chainID depth)
      = Done m2).
Proof.
  intros Hlong.
  assert (Hrows : Forall decodes (query db chainID depth)).
  { apply Forall_forall. intros c Hc. apply decodes_sliceable.
    unfold sliceable.
    pose proof (Replace_length (RequestID c) Go.dquote 2).
    specialize (Hlong c Hc). lia. }
  rewrite V1_connected, V2_connected, stepV1_step_with, stepV2_step_with.
  cbn [result snd]. split; by apply range_done.
Qed.

Lemma long_tags_never_panic_witness :
  (exists m1,
      result (GetStartingResponseCountsV1 (Connected Sample.db_malformed)
                Sample.lggr 1 50) = Done m1)
  /\ (exists m2,
      result (GetStartingResponseCountsV2 (Connected Sample.db_malformed)
                Sample.lggr 1 50) = Done m2).
Proof.
  apply long_tags_never_panic.
  intros c Hc. vm_compute in Hc.
  repeat (apply elem_of_cons in Hc as [->|Hc]; [cbn; lia|]).
  by apply elem_of_nil in Hc.
Defined.

(** When a map comes back, the calls made are the one query and then one
    report for each row whose payload is not hex, in the order of the rows;
    V1 and V2 report the same rows. *)
Theorem reports_are_the_undecodable_rows (db : DB) (l : Logger)
  (chainID depth : Z) :
  Forall sliceable (query db chainID depth) ->
  trace (GetStartingResponseCountsV1 (Connected db) l chainID depth)
  = EvSelect chainID depth :: (query db chainID depth ≫= row_log l)
  /\ trace (GetStartingResponseCountsV2 (Connected db) l chainID depth)
     = EvSelect chainID depth :: (query db chainID depth ≫= row_log l).
Proof.
  intros Hrows%Forall_decodes_sliceable.
  rewrite V1_connected, V2_connected, stepV1_step_with, stepV2_step_with.
  cbn [trace fst]. by rewrite !range_trace.
Qed.

Lemma reports_are_the_undecodable_rows_witness :
  trace (GetStartingResponseCountsV1 (Connected Sample.db_malformed)
           Sample.lggr 1 50)
  = EvSelect 1 50 :: (query Sample.db_malformed 1 50 ≫= row_log Sample.lggr)
  /\ trace (GetStartingResponseCountsV2 (Connected Sample.db_malformed)
              Sample.lggr 1 50)
     = EvSelect 1 50 :: (query Sample.db_malformed 1 50 ≫= row_log Sample.lggr).
Proof.
  apply reports_are_the_undecodable_rows.
  vm_compute. repeat constructor.
Defined.

(** The entries of the maps are exactly the keys of the rows that decode:
    nothing else is put in and no decoded row is left out. *)
Theorem entries_are_the_decoded_rows (db : DB) (l : Logger)
  (chainID depth : Z) (m1 : gmap (list Z) Z) (m2 : gmap string Z) :
  result (GetStartingResponseCountsV1 (Connected db) l chainID depth)
  = Done m1 ->
  result (GetStartingResponseCountsV2 (Connected db) l chainID depth)
  = Done m2 ->
  (forall k, is_Some (m1 !! k)
             <-> exists c b, c ∈ query db chainID depth
                             /\ decodeRequestID c = ret (inr b)
                             /\ reqID_of b = k)
  /\ (forall k, is_Some (m2 !! k)
                <-> exists c b, c ∈ query db chainID depth
                                /\ decodeRequestID c = ret (inr b)
                                /\ keyV2 b = k).
Proof.
  rewrite V1_connected, V2_connected, stepV1_step_with, stepV2_step_with.
  cbn [result snd]. intros H1 H2. split; intros k.
  - by apply (range_entries reqID_of l).
  - by apply (range_entries keyV2 l).
Qed.

Lemma entries_are_the_decoded_rows_witness :
  (forall k, is_Some (({[ Sample.hash32 10 := 1; Sample.hash32 11 := 1 ]}
                       : gmap (list Z) Z) !! k)
             <-> exists c b, c ∈ query Sample.db_malformed 1 50
                             /\ decodeRequestID c = ret (inr b)
                             /\ reqID_of b = k)
  /\ (forall k, is_Some (({[ "10"%string := 1; "11"%string := 1 ]}
                          : gmap string Z) !! k)
                <-> exists c b, c ∈ query Sample.db_malformed 1 50
                                /\ decodeRequestID c = ret (inr b)
                                /\ keyV2 b = k).
Proof.
  apply (entries_are_the_decoded_rows Sample.db_malformed Sample.lggr 1 50);
    vm_compute; reflexivity.
Defined.

(** Whatever the store holds, every key of the V1 map is 32 bytes, each
    between 0 and 255, and every count fits 64 bits. *)
Theorem V1_keys_are_32_bytes (q : Q) (l : Logger) (chainID depth : Z)
  (m : gmap (list Z) Z) (k : list Z) (v : Z) :
  result (GetStartingResponseCountsV1 q l chainID depth) = Done m ->
  m !! k = Some v ->
  length k = 32%nat /\ Forall Go.is_byte k /\ 0 <= v < 2 ^ 64.
Proof.
  destruct q as [db|e].
  - rewrite V1_connected, stepV1_step_with. cbn [result snd]. intros Hr Hv.
    destruct (range_value_of_a_row reqID_of l _ ∅ m k v Hr Hv)
      as [He|(c & b & _ & Hd & <- & ->)]; [by rewrite lookup_empty in He|].
    split; [apply reqID_of_length|]. split.
    + by apply reqID_of_bytes, (decodeRequestID_bytes c).
    + unfold Go.uint64. apply Z.mod_pos_bound. lia.
  - intros [= <-] He. by rewrite lookup_empty in He.
Qed.

Lemma V1_keys_are_32_bytes_witness :
  length (Sample.hash32 10) = 32%nat
  /\ Forall Go.is_byte (Sample.hash32 10)
  /\ 0 <= 1 < 2 ^ 64.
Proof.
  apply (V1_keys_are_32_bytes (Connected Sample.db_union) Sample.lggr 1 50
           {[ Sample.hash32 10 := 1; Sample.hash32 11 := 1;
              Sample.hash32 12 := 3 ]});
    vm_compute; reflexivity.
Defined.

(** Every key of the V2 map is the decimal text of a non-negative integer,
    and every count fits 64 bits. *)
Theorem V2_keys_are_decimal (q : Q) (l : Logger) (chainID depth : Z)
  (m : gmap string Z) (k : string) (v : Z) :
  result (GetStartingResponseCountsV2 q l chainID depth) = Done m ->
  m !! k = Some v ->
  (exists n, 0 <= n /\ k = Go.big_String n
             /\ Z.of_int <$> NilZero.int_of_string k = Some n)
  /\ 0 <= v < 2 ^ 64.
Proof.
  destruct q as [db|e].
  - rewrite V2_connected, stepV2_step_with. cbn [result snd]. intros Hr Hv.
    destruct (range_value_of_a_row keyV2 l _ ∅ m k v Hr Hv)
      as [He|(c & b & _ & Hd & <- & ->)]; [by rewrite lookup_empty in He|].
    split.
    + exists (be_value b). unfold keyV2. rewrite SetBytes_be_value.
      split; [|split; [reflexivity|apply parse_big_String]].
      by apply be_value_bound, (decodeRequestID_bytes c).
    + unfold Go.uint64. apply Z.mod_pos_bound. lia.
  - intros [= <-] He. by rewrite lookup_empty in He.
Qed.

Lemma V2_keys_are_decimal_witness :
  (exists n, 0 <= n /\ "12"%string = Go.big_String n
             /\ Z.of_int <$> NilZero.int_of_string "12" = Some n)
  /\ 0 <= 3 < 2 ^ 64.
Proof.
  apply (V2_keys_are_decimal (Connected Sample.db_union) Sample.lggr 1 50
           {[ "10"%string := 1; "11"%string := 1; "12"%string := 3 ]});
    vm_compute; reflexivity.
Defined.

(** Two payloads of 32 bytes share a V1 key, or a V2 key, only if they are
    the same payload. *)
Theorem full_identifiers_do_not_collide (b b' : list Z) :
  length b = 32%nat -> length b' = 32%nat ->
  Forall Go.is_byte b -> Forall Go.is_byte b' ->
  (reqID_of b = reqID_of b' <-> b = b')
  /\ (keyV2 b = keyV2 b' <-> b = b').
Proof.
  intros Hl Hl' Hb Hb'. split; (split; [|by intros ->]).
  - by rewrite !reqID_of_32.
  - unfold keyV2. rewrite !SetBytes_be_value. intros Hk%big_String_inj.
    apply be_value_inj; [congruence|done..].
Qed.

Lemma full_identifiers_do_not_collide_witness :
  (reqID_of (Sample.hash32 10) = reqID_of (Sample.hash32 11)
   <-> Sample.hash32 10 = Sample.hash32 11)
  /\ (keyV2 (Sample.hash32 10) = keyV2 (Sample.hash32 11)
      <-> Sample.hash32 10 = Sample.hash32 11).
Proof.
  apply full_identifiers_do_not_collide;
    try reflexivity; unfold Go.is_byte; repeat constructor; lia.
Defined.

(** A payload shorter than 32 bytes.  V1 copies it to the front of the
    key, so zero bytes at its end make no difference and the key, read
    big-endian, is the payload's number shifted up by the missing bytes.
    V2 reads the payload big-endian, so zero bytes at its front make no
    difference.  The two encodings name different identifiers. *)
Theorem short_payload_keys (b : list Z) (n : nat) :
  (length b + n <= 32)%nat ->
  reqID_of (b ++ replicate n 0) = reqID_of b
  /\ keyV2 (replicate n 0 ++ b) = keyV2 b
  /\ be_value (reqID_of b) = be_value b * 256 ^ Z.of_nat (32 - length b).
Proof.
  intros Hn. split; [|split].
  - rewrite !reqID_of_short by (rewrite ?length_app, ?length_replicate; lia).
    rewrite length_app, length_replicate, <- app_assoc, <- replicate_add.
    do 2 f_equal. lia.
  - unfold keyV2. rewrite !SetBytes_be_value, be_value_app, be_value_zeros.
    f_equal; lia.
  - rewrite reqID_of_short by lia.
    rewrite be_value_app, be_value_zeros, length_replicate. lia.
Qed.

Lemma short_payload_keys_witness :
  reqID_of ([1] ++ replicate 31 0) = reqID_of [1]
  /\ keyV2 (replicate 31 0 ++ [1]) = keyV2 [1]
  /\ be_value (reqID_of [1]) = be_value [1] * 256 ^ Z.of_nat (32 - length [1]).
Proof.
  apply (short_payload_keys [1] 31). cbn. lia.
Defined.

(** The two bytes in front of the payload are dropped unread: whatever
    they are, the row decodes as its payload does. *)
Theorem prefix_is_not_checked (p q : ascii) (s : string) (cnt : Z) :
  p <> Go.dquote -> q <> Go.dquote -> quote_free s ->
  decodeRequestID
    {| RequestID := Go.quoted (String p (String q s)); Count := cnt |}
  = ret (Hex.DecodeString s).
Proof.
  intros Hp Hq Hs. unfold decodeRequestID. cbn [RequestID].
  rewrite Replace_quoted by (cbn [quote_free]; auto).
  by rewrite slice_from_two.
Qed.

Lemma prefix_is_not_checked_witness :
  decodeRequestID {| RequestID := Go.quoted "zz0a"; Count := 1 |}
  = ret (Hex.DecodeString "0a").
Proof.
  apply (prefix_is_not_checked "z" "z" "0a" 1);
    [discriminate | discriminate | cbn; repeat split; discriminate].
Defined.

(** * Further properties of the delegate *)

Section CallFacts.
Context {A B : Type}.

Lemma bindE_call_inl (ev : event) (e : error) (k : A -> M (error + B)) :
  bindE (call ev (inl e)) k = ([ev], Done (inl e)).
Proof. reflexivity. Qed.

Lemma bindE_call_inr (ev : event) (a : A) (k : A -> M (error + B)) :
  bindE (call ev (inr a)) k = (ev :: trace (k a), result (k a)).
Proof.
  unfold bindE, call, bind, emit, ret, trace, result. cbn.
  by destruct (k a).
Qed.

Lemma bindE_ret_inr (a : A) (k : A -> M (error + B)) :
  bindE (ret (inr a)) k = k a.
Proof. unfold bindE. by rewrite bind_ret. Qed.

Lemma bind_ret_map (m : M A) (f : A -> B) :
  bind m (fun a => ret (f a))
  = (trace m,
     match result m with
     | Done a => Done (f a)
     | Panicked w => Panicked w
     end).
Proof.
  destruct m as [t [a|w]]; cbn; [|reflexivity]. by rewrite app_nil_r.
Qed.

End CallFacts.

Section DelegateMore.

Context {Coordinator CoordinatorV2 Aggregator : Type}.
Variable NewVRFCoordinator : string -> Chain -> error + Coordinator.
Variable NewVRFCoordinatorV2 : string -> Chain -> error + CoordinatorV2.
Variable LINKETHFEED : CoordinatorV2 -> error + string.
Variable NewAggregatorV3Interface : string -> Chain -> error + Aggregator.

Abbreviation resolve_ :=
  (resolve Coordinator CoordinatorV2 Aggregator LINKETHFEED
     NewAggregatorV3Interface).
Abbreviation Services_ :=
  (ServicesForSpec Coordinator CoordinatorV2 Aggregator NewVRFCoordinator
     NewVRFCoordinatorV2 LINKETHFEED NewAggregatorV3Interface).

Lemma resolve_only_first d jb chain co co2 lV1 lV2 tasks :
  resolve_ d jb chain co co2 lV1 lV2 tasks
  = resolve_ d jb chain co co2 lV1 lV2 (first_vrf_only tasks).
Proof.
  induction tasks as [|[| |kind] tasks IH]; [reflexivity..|exact IH].
Qed.

Lemma first_vrf_only_Some tasks t :
  first_vrf tasks = Some t -> first_vrf_only tasks = [t].
Proof. unfold first_vrf_only. by intros ->. Qed.

Lemma Forall_no_store_cons ev t :
  store_event ev = false ->
  Forall (fun ev => store_event ev = false) t ->
  Forall (fun ev => store_event ev = false) (ev :: t).
Proof. by constructor. Qed.

Ltac no_store :=
  cbn; repeat (apply Forall_no_store_cons; [reflexivity|]); apply Forall_nil_2.

(** C-style early returns, read as rewriting steps. *)
Ltac call_ok H :=
  rewrite H, bindE_call_inr; cbn beta; cbn [trace result fst snd].
Ltac call_err H :=
  rewrite H, bindE_call_inl; cbn beta; cbn [trace result fst snd].

(** Up to the loop: three calls, then what the loop does. *)
Lemma Services_to_resolve d jb spec ps tasks chain co co2 :
  JobVRFSpec jb = Some spec ->
  JobPipelineSpec jb = Some ps ->
  Pipeline ps = inr tasks ->
  d_cc d (EVMChainID spec) = inr chain ->
  NewVRFCoordinator (CoordinatorAddress spec) chain = inr co ->
  NewVRFCoordinatorV2 (CoordinatorAddress spec) chain = inr co2 ->
  Services_ d jb
  = (EvChainGet (EVMChainID spec)
       :: EvNewVRFCoordinator (CoordinatorAddress spec)
       :: EvNewVRFCoordinatorV2 (CoordinatorAddress spec)
       :: trace (resolve_ d jb chain co co2
                   (job_logger d jb spec "VRFListener")
                   (job_logger d jb spec "VRFListenerV2")
                   (first_vrf_only tasks)),
     result (resolve_ d jb chain co co2
               (job_logger d jb spec "VRFListener")
               (job_logger d jb spec "VRFListenerV2")
               (first_vrf_only tasks))).
Proof.
  intros Hs Hp Ht Hc H1 H2. unfold ServicesForSpec.
  rewrite Hs, Hp, Ht. unfold bindE at 1. rewrite bind_ret.
  call_ok Hc. call_ok H1. call_ok H2.
  by rewrite resolve_only_first.
Qed.

(** An error of the pipeline, of the chain set or of a coordinator binding
    is handed back as it is, and nothing is called after the call that
    failed. *)
Theorem early_errors_stop_the_calls (d : Delegate) (jb : Job)
  (spec : VRFSpec) (ps : PipelineSpec) :
  JobVRFSpec jb = Some spec ->
  JobPipelineSpec jb = Some ps ->
  (forall e, Pipeline ps = inl e -> Services_ d jb = ([], Done (inl e)))
  /\ (forall tasks e,
        Pipeline ps = inr tasks ->
        d_cc d (EVMChainID spec) = inl e ->
        Services_ d jb = ([EvChainGet (EVMChainID spec)], Done (inl e)))
  /\ (forall tasks chain e,
        Pipeline ps = inr tasks ->
        d_cc d (EVMChainID spec) = inr chain ->
        NewVRFCoordinator (CoordinatorAddress spec) chain = inl e ->
        Services_ d jb
        = ([EvChainGet (EVMChainID spec);
            EvNewVRFCoordinator (CoordinatorAddress spec)],
           Done (inl e)))
  /\ (forall tasks chain co e,
        Pipeline ps = inr tasks ->
        d_cc d (EVMChainID spec) = inr chain ->
        NewVRFCoordinator (CoordinatorAddress spec) chain = inr co ->
        NewVRFCoordinatorV2 (CoordinatorAddress spec) chain = inl e ->
        Services_ d jb
        = ([EvChainGet (EVMChainID spec);
            EvNewVRFCoordinator (CoordinatorAddress spec);
            EvNewVRFCoordinatorV2 (CoordinatorAddress spec)],
           Done (inl e))).
Proof.
  intros Hs Hp. unfold ServicesForSpec. rewrite Hs, Hp.
  split; [|split; [|split]].
  - intros e He. by rewrite He.
  - intros tasks e Ht Hc. rewrite Ht. unfold bindE at 1. rewrite bind_ret.
    by call_err Hc.
  - intros tasks chain e Ht Hc H1. rewrite Ht. unfold bindE at 1.
    rewrite bind_ret. call_ok Hc. by call_err H1.
  - intros tasks chain co e Ht Hc H1 H2. rewrite Ht. unfold bindE at 1.
    rewrite bind_ret. call_ok Hc. call_ok H1. by call_err H2.
Qed.

(** The V1 branch from start to end: three calls, then the calls of the
    V1 starting counts, asked for the chain identifier of the chain's
    client and its finality depth; the listener carries the map that came
    back, and a panic of the starting counts is the delegate's panic. *)
Theorem V1_branch_run (d : Delegate) (jb : Job) (spec : VRFSpec)
  (ps : PipelineSpec) (tasks : list Task) (chain : Chain)
  (co : Coordinator) (co2 : CoordinatorV2) :
  JobVRFSpec jb = Some spec ->
  JobPipelineSpec jb = Some ps ->
  Pipeline ps = inr tasks ->
  d_cc d (EVMChainID spec) = inr chain ->
  NewVRFCoordinator (CoordinatorAddress spec) chain = inr co ->
  NewVRFCoordinatorV2 (CoordinatorAddress spec) chain = inr co2 ->
  first_vrf tasks = Some VRFTask ->
  Services_ d jb
  = (EvChainGet (EVMChainID spec)
       :: EvNewVRFCoordinator (CoordinatorAddress spec)
       :: EvNewVRFCoordinatorV2 (CoordinatorAddress spec)
       :: trace (GetStartingResponseCountsV1 (d_q d)
                   (job_logger d jb spec "VRFListener")
                   (Go.big_Uint64 (ClientChainID chain))
                   (EvmFinalityDepth chain)),
     match result (GetStartingResponseCountsV1 (d_q d)
                     (job_logger d jb spec "VRFListener")
                     (Go.big_Uint64 (ClientChainID chain))
                     (EvmFinalityDepth chain)) with
     | Done m =>
         Done (inr [ListenerV1
                      {| l1_cfg := chain;
                         l1_l := job_logger d jb spec "VRFListener";
                         l1_coordinator := co; l1_job := jb;
                         l1_respCount := m |}])
     | Panicked w => Panicked w
     end).
Proof.
  intros Hs Hp Ht Hc H1 H2 Hv.
  rewrite (Services_to_resolve d jb spec ps tasks chain co co2) by done.
  rewrite (first_vrf_only_Some _ _ Hv).
  cbn [resolve]. rewrite bind_ret_map. reflexivity.
Qed.

(** The V2 branch from start to end.  An error reading the price feed
    address, or binding its reader, is handed back and the store is not
    asked; otherwise five calls, then the calls of the V2 starting counts;
    the listener carries the map that came back, and a panic of the
    starting counts is the delegate's panic. *)
Theorem V2_branch_run (d : Delegate) (jb : Job) (spec : VRFSpec)
  (ps : PipelineSpec) (tasks : list Task) (chain : Chain)
  (co : Coordinator) (co2 : CoordinatorV2) :
  JobVRFSpec jb = Some spec ->
  JobPipelineSpec jb = Some ps ->
  Pipeline ps = inr tasks ->
  d_cc d (EVMChainID spec) = inr chain ->
  NewVRFCoordinator (CoordinatorAddress spec) chain = inr co ->
  NewVRFCoordinatorV2 (CoordinatorAddress spec) chain = inr co2 ->
  first_vrf tasks = Some VRFTaskV2 ->
  (forall e,
      LINKETHFEED co2 = inl e ->
      Services_ d jb
      = ([EvChainGet (EVMChainID spec);
          EvNewVRFCoordinator (CoordinatorAddress spec);
          EvNewVRFCoordinatorV2 (CoordinatorAddress spec);
          EvLINKETHFEED],
         Done (inl e)))
  /\ (forall feed e,
        LINKETHFEED co2 = inr feed ->
        NewAggregatorV3Interface feed chain = inl e ->
        Services_ d jb
        = ([EvChainGet (EVMChainID spec);
            EvNewVRFCoordinator (CoordinatorAddress spec);
            EvNewVRFCoordinatorV2 (CoordinatorAddress spec);
            EvLINKETHFEED; EvNewAggregatorV3Interface feed],
           Done (inl e)))
  /\ (forall feed agg,
        LINKETHFEED co2 = inr feed ->
        NewAggregatorV3Interface feed chain = inr agg ->
        Services_ d jb
        = (EvChainGet (EVMChainID spec)
             :: EvNewVRFCoordinator (CoordinatorAddress spec)
             :: EvNewVRFCoordinatorV2 (CoordinatorAddress spec)
             :: EvLINKETHFEED :: EvNewAggregatorV3Interface feed
             :: trace (GetStartingResponseCountsV2 (d_q d)
                         (job_logger d jb spec "VRFListenerV2")
                         (Go.big_Uint64 (ClientChainID chain))
                         (EvmFinalityDepth chain)),
           match result (GetStartingResponseCountsV2 (d_q d)
                           (job_logger d jb spec "VRFListenerV2")
                           (Go.big_Uint64 (ClientChainID chain))
                           (EvmFinalityDepth chain)) with
           | Done m =>
               Done (inr [ListenerV2
                            {| l2_cfg := chain;
                               l2_l := job_logger d jb spec "VRFListenerV2";
                               l2_coordinator := co2; l2_aggregator := agg;
                               l2_job := jb; l2_respCount := m |}])
           | Panicked w => Panicked w
           end)).
Proof.
  intros Hs Hp Ht Hc H1 H2 Hv.
  rewrite (Services_to_resolve d jb spec ps tasks chain co co2) by done.
  rewrite (first_vrf_only_Some _ _ Hv).
  cbn [resolve]. split; [|split].
  - intros e Hf. by call_err Hf.
  - intros feed e Hf Ha. call_ok Hf. by call_err Ha.
  - intros feed agg Hf Ha. call_ok Hf. call_ok Ha.
    rewrite bind_ret_map. reflexivity.
Qed.

(** Tasks that are not VRF tasks, and every task after the first VRF
    task, have no effect on what the loop does. *)
Theorem only_first_vrf_task_is_read (d : Delegate) (jb : Job) (chain : Chain)
  (co : Coordinator) (co2 : CoordinatorV2) (lV1 lV2 : Logger)
  (before after : list Task) (t : Task) :
  Forall (fun t' => is_vrf t' = false) before ->
  is_vrf t = true ->
  resolve_ d jb chain co co2 lV1 lV2 (before ++ t :: after)
  = resolve_ d jb chain co co2 lV1 lV2 [t].
Proof.
  intros Hb Ht. rewrite resolve_only_first.
  rewrite (resolve_only_first _ _ _ _ _ _ _ [t]). f_equal.
  unfold first_vrf_only, first_vrf.
  induction Hb as [|t' before Ht' _ IH]; cbn [app List.find].
  - by rewrite Ht.
  - by rewrite Ht'.
Qed.

Lemma quiet_error (x : error + list (job_ServiceCtx Coordinator CoordinatorV2
                                         Aggregator)) (e : error) :
  result (ret x) = Done (inl e) ->
  Forall (fun ev => store_event ev = false) (trace (ret x)).
Proof. intros _. apply Forall_nil_2. Qed.

Lemma quiet_call {A} (ev : event) (ans : error + A)
  (k : A -> M (error + list (job_ServiceCtx Coordinator CoordinatorV2
                               Aggregator))) (e : error) :
  store_event ev = false ->
  (forall a, result (k a) = Done (inl e) ->
             Forall (fun ev => store_event ev = false) (trace (k a))) ->
  result (bindE (call ev ans) k) = Done (inl e) ->
  Forall (fun ev => store_event ev = false) (trace (bindE (call ev ans) k)).
Proof.
  intros Hev Hk. destruct ans as [e0|a].
  - rewrite bindE_call_inl. intros _. by apply Forall_no_store_cons.
  - rewrite bindE_call_inr. cbn [trace result fst snd]. intros Hr.
    apply Forall_no_store_cons; [exact Hev|]. by apply Hk.
Qed.

Lemma quiet_listener {A} (m : M A)
  (f : A -> list (job_ServiceCtx Coordinator CoordinatorV2 Aggregator))
  (e : error) :
  result (bind m (fun a => ret (@inr error _ (f a)))) = Done (inl e) ->
  Forall (fun ev => store_event ev = false)
    (trace (bind m (fun a => ret (@inr error _ (f a))))).
Proof.
  rewrite (bind_ret_map m (fun a => @inr error _ (f a))). cbn [result snd].
  by destruct (result m).
Qed.

(** A resolution that ends in an error has neither queried the store nor
    written to its logger. *)
Theorem failed_resolution_leaves_store_alone (d : Delegate) (jb : Job)
  (e : error) :
  result (Services_ d jb) = Done (inl e) ->
  Forall (fun ev => store_event ev = false) (trace (Services_ d jb)).
Proof.
  unfold ServicesForSpec.
  destruct (JobVRFSpec jb) as [spec|]; [|apply quiet_error].
  destruct (JobPipelineSpec jb) as [ps|]; [|apply quiet_error].
  destruct (Pipeline ps) as [e0|tasks]; [apply quiet_error|].
  rewrite bindE_ret_inr.
  apply quiet_call; [reflexivity|]. intros chain.
  apply quiet_call; [reflexivity|]. intros co.
  apply quiet_call; [reflexivity|]. intros co2.
  rewrite resolve_only_first. unfold first_vrf_only.
  destruct (first_vrf tasks) as [[| |kind]|]; cbn [resolve].
  - apply quiet_call; [reflexivity|]. intros feed.
    apply quiet_call; [reflexivity|]. intros agg.
    apply (quiet_listener _ (fun m => [ListenerV2 _])).
  - apply (quiet_listener _ (fun m => [ListenerV1 _])).
  - apply quiet_error.
  - apply quiet_error.
Qed.

End DelegateMore.

Lemma confirmed_rows_ignore_state_witness :
  confirmedQuery (restate (fun _ => "confirmed"%string) Sample.db_both) 1 50
  = confirmedQuery Sample.db_both 1 50
  /\ 1 <= count_for "r" (unconfirmedQuery Sample.db_both)
  /\ 1 <= count_for "r" (confirmedQuery Sample.db_both 1 50).
Proof.
  apply (confirmed_rows_ignore_state Sample.db_both
           (fun _ => "confirmed"%string) 1 50 1000 "r"
           ({| et_id := 1; et_meta_RequestID := Some "r"%string;
               et_state := "unconfirmed"; et_evm_chain_id := 1 |},
            Sample.attempt 1 "h1", Sample.receipt "h1" 990)).
  - vm_compute. reflexivity.
  - vm_compute. apply list_elem_of_here.
  - reflexivity.
  - vm_compute. reflexivity.
  - cbn. lia.
Defined.

Lemma early_errors_stop_the_calls_witness :
  ServicesForSpec string string string Sample.bindOK Sample.bindOK
    Sample.feedOK Sample.bindOK (Sample.delegate_no_chain Sample.store_one)
    (Sample.job [VRFTaskV2])
  = ([EvChainGet 137], Done (inl (ErrExternal "chain not found"))).
Proof.
  destruct (early_errors_stop_the_calls Sample.bindOK Sample.bindOK
              Sample.feedOK Sample.bindOK
              (Sample.delegate_no_chain Sample.store_one)
              (Sample.job [VRFTaskV2]) Sample.spec
              {| Pipeline := inr [VRFTaskV2] |} eq_refl eq_refl)
    as (_ & Hchain & _).
  apply (Hchain [VRFTaskV2]); reflexivity.
Defined.

Lemma V1_branch_run_witness :
  Sample.services Sample.store_short Sample.feedOK
    (Sample.job [OtherTask "bridge"; VRFTask])
  = ([EvChainGet 137; EvNewVRFCoordinator "0xc0";
      EvNewVRFCoordinatorV2 "0xc0"; EvSelect 137 50],
     Panicked "slice bounds out of range").
Proof.
  apply (V1_branch_run Sample.bindOK Sample.bindOK Sample.feedOK Sample.bindOK
           (Sample.delegate Sample.store_short)
           (Sample.job [OtherTask "bridge"; VRFTask]) Sample.spec
           {| Pipeline := inr [OtherTask "bridge"; VRFTask] |}
           [OtherTask "bridge"; VRFTask] Sample.chain137
           "0xc0"%string "0xc0"%string); reflexivity.
Defined.

Lemma V2_branch_run_witness :
  Sample.services Sample.store_one Sample.feedOK (Sample.job [VRFTaskV2])
  = ([EvChainGet 137; EvNewVRFCoordinator "0xc0";
      EvNewVRFCoordinatorV2 "0xc0"; EvLINKETHFEED;
      EvNewAggregatorV3Interface "0xfeed"; EvSelect 137 50],
     Done (inr [ListenerV2
                  {| l2_cfg := Sample.chain137;
                     l2_l := job_logger (Sample.delegate Sample.store_one)
                               (Sample.job [VRFTaskV2]) Sample.spec
                               "VRFListenerV2";
                     l2_coordinator := "0xc0"%string;
                     l2_aggregator := "0xfeed"%string;
                     l2_job := Sample.job [VRFTaskV2];
                     l2_respCount := {[ "1"%string := 1 ]} |}])).
Proof.
  destruct (V2_branch_run Sample.bindOK Sample.bindOK Sample.feedOK
              Sample.bindOK (Sample.delegate Sample.store_one)
              (Sample.job [VRFTaskV2]) Sample.spec
              {| Pipeline := inr [VRFTaskV2] |} [VRFTaskV2] Sample.chain137
              "0xc0"%string "0xc0"%string
              eq_refl eq_refl eq_refl eq_refl eq_refl eq_refl eq_refl)
    as (_ & _ & Hrun).
  unfold Sample.services.
  rewrite (Hrun "0xfeed"%string "0xfeed"%string eq_refl eq_refl).
  vm_compute. reflexivity.
Defined.

Lemma only_first_vrf_task_is_read_witness :
  resolve string string string Sample.feedOK Sample.bindOK
    (Sample.delegate Sample.store_one) (Sample.job []) Sample.chain137
    "0xc0"%string "0xc0"%string Sample.lggr Sample.lggr
    ([OtherTask "bridge"] ++ VRFTask :: [VRFTaskV2; OtherTask "median"])
  = resolve string string string Sample.feedOK Sample.bindOK
      (Sample.delegate Sample.store_one) (Sample.job []) Sample.chain137
      "0xc0"%string "0xc0"%string Sample.lggr Sample.lggr [VRFTask].
Proof.
  apply only_first_vrf_task_is_read; [by repeat constructor | reflexivity].
Defined.

Lemma failed_resolution_leaves_store_alone_witness :
  Forall (fun ev => store_event ev = false)
    (trace (Sample.services Sample.store_one Sample.feedDown
              (Sample.job [VRFTaskV2]))).
Proof.
  apply (failed_resolution_leaves_store_alone Sample.bindOK Sample.bindOK
           Sample.feedDown Sample.bindOK (Sample.delegate Sample.store_one)
           (Sample.job [VRFTaskV2]) (ErrExternal "execution reverted")).
  vm_compute. reflexivity.
Defined.

(** * Further properties of the adapter *)

(** Any run of calls, with any contexts, through the adapter gives the
    answers the same run gives on the service itself, and leaves the
    adapter holding the service in the state that run leaves it in. *)
Theorem adapter_simulates_service {T : Type} `{Services.Service T}
  (ops : list op) (s : T) :
  run_ops do_serviceCtx ops (Services.NewServiceCtx s)
  = (fst (run_ops do_service ops s),
     Services.NewServiceCtx (snd (run_ops do_service ops s))).
Proof.
  revert s. induction ops as [|o ops IH]; intros s; [reflexivity|].
  cbn [run_ops].
  assert (Hstep : do_serviceCtx o (Services.NewServiceCtx s)
                  = (fst (do_service o s),
                     Services.NewServiceCtx (snd (do_service o s)))).
  { unfold Services.NewServiceCtx.
    destruct o; cbn; unfold Services.forward; cbn;
      match goal with |- context [let (_, _) := ?x in _] => by destruct x end. }
  rewrite Hstep. destruct (do_service o s) as [err s']. cbn [fst snd].
  rewrite IH. by destruct (run_ops do_service ops s').
Qed.

(** The hooks run on job creation and deletion call nothing. *)
Lemma hooks_call_nothing (d : Delegate) (jb : Job) :
  AfterJobCreated d jb = ret tt /\ BeforeJobDeleted d jb = ret tt.
Proof. by split. Qed.

(** * The chain identifier *)

Section ChainFacts.






End ChainFacts.




(** * The listener follows the VRF task *)

Section ListenerFacts.





End ListenerFacts.

Section ListenerClaim.

Context {Coordinator CoordinatorV2 Aggregator : Type}.
Variable NewVRFCoordinator : string -> Chain -> error + Coordinator.
Variable NewVRFCoordinatorV2 : string -> Chain -> error + CoordinatorV2.
Variable LINKETHFEED : CoordinatorV2 -> error + string.
Variable NewAggregatorV3Interface : string -> Chain -> error + Aggregator.

Abbreviation Resolved :=
  (ServicesForSpec Coordinator CoordinatorV2 Aggregator NewVRFCoordinator
     NewVRFCoordinatorV2 LINKETHFEED NewAggregatorV3Interface).


End ListenerClaim.

